(** * DevilsPal: the trigger registry, the dispatcher and the response browser

    A shallow embedding of [pal.py].  Python objects become records, the
    insertion-ordered [dict] of triggers becomes an association list, and the
    cog's effects (sending messages, writing the configuration, touching
    attachment files, drawing random numbers) are threaded through a small
    state-and-exception monad over a [World].

    Conventions.
    - A Python [str] is a [string]; its characters are the string's [ascii]
      elements.
    - The [re] library is an interface ([re.Engine]): which sources compile,
      which exception the others raise and where a compiled pattern matches is
      left to the engine, everything the cog does with a pattern is modelled
      here.
    - [random] is a stream of raw draws; [randbelow n] reduces the next draw
      modulo [n], so every behaviour of the library is some stream.
    - An attachment path [cog_data_path / "trigger_files" / name / filename] is
      the pair of its last two components; a folder is known by its name and
      the names of its files.
    - The handlers run one at a time, after [initialize] has set [_ready];
      the owner check of the command group and [pal list], whose paging is
      Red's, are left out. *)

From Stdlib Require Import String Ascii List ZArith NArith Bool Arith Lia.
From Stdlib Require Import DecimalString DecimalN.
Import ListNotations.
Open Scope list_scope.
Open Scope string_scope.

Set Implicit Arguments.

(** ** Python values *)

(** The exceptions the modelled code can raise. *)
Inductive Exn : Type :=
| ReError            (* re.error *)
| OverflowError
| RecursionError
| ValueError
| IndexError
| ZeroDivisionError
| FileNotFoundError
| TimeoutError       (* asyncio.TimeoutError *)
| KeyError
| BadArgument (msg : string).

Inductive Result (A : Type) : Type :=
| Ok (a : A)
| Raise (e : Exn).
Arguments Ok {A} a.
Arguments Raise {A} e.

Definition nl : string := String (ascii_of_nat 10) "".
Definition tab : string := String (ascii_of_nat 9) "".

(** [s[n:]] for [0 <= n]. *)
Fixpoint drop (n : nat) (s : string) : string :=
  match n, s with
  | O, _ => s
  | S _, EmptyString => EmptyString
  | S n', String _ s' => drop n' s'
  end.

(** [s[:n]] for [0 <= n]. *)
Fixpoint take (n : nat) (s : string) : string :=
  match n, s with
  | O, _ => EmptyString
  | S _, EmptyString => EmptyString
  | S n', String c s' => String c (take n' s')
  end.

(** [l[i]]: a negative index counts from the end, anything else out of range
    raises [IndexError]. *)
Definition getitem {A : Type} (l : list A) (i : Z) : Result A :=
  let n := Z.of_nat (length l) in
  let j := if (i <? 0)%Z then (i + n)%Z else i in
  if ((j <? 0) || (n <=? j))%Z then Raise IndexError
  else match nth_error l (Z.to_nat j) with
       | Some x => Ok x
       | None => Raise IndexError
       end.

Fixpoint remove_nth {A : Type} (k : nat) (l : list A) : list A :=
  match k, l with
  | _, [] => []
  | O, _ :: l' => l'
  | S k', x :: l' => x :: remove_nth k' l'
  end.

(** [del l[i]]. *)
Definition delitem {A : Type} (l : list A) (i : Z) : Result (list A) :=
  let n := Z.of_nat (length l) in
  let j := if (i <? 0)%Z then (i + n)%Z else i in
  if ((j <? 0) || (n <=? j))%Z then Raise IndexError
  else Ok (remove_nth (Z.to_nat j) l).

(** [a % b] on integers: the result has the sign of [b], as [Z.modulo]. *)
Definition pymod (a b : Z) : Result Z :=
  if (b =? 0)%Z then Raise ZeroDivisionError else Ok (a mod b)%Z.

(** ** Insertion-ordered dictionaries with string keys *)

Section Dict.
Variable V : Type.

Definition dict := list (string * V).

(** [d.get(k)] *)
Fixpoint dict_get (d : dict) (k : string) : option V :=
  match d with
  | [] => None
  | (k', v) :: d' => if String.eqb k' k then Some v else dict_get d' k
  end.

(** [d[k] = v]: an existing key keeps its position, a new key goes last. *)
Fixpoint dict_set (d : dict) (k : string) (v : V) : dict :=
  match d with
  | [] => [(k, v)]
  | (k', v') :: d' =>
      if String.eqb k' k then (k', v) :: d' else (k', v') :: dict_set d' k v
  end.

(** [del d[k]] on a key that is present (absent: the dictionary is kept). *)
Fixpoint dict_del (d : dict) (k : string) : dict :=
  match d with
  | [] => []
  | (k', v') :: d' =>
      if String.eqb k' k then d' else (k', v') :: dict_del d' k
  end.

(** [d.values()] and [d.keys()] *)
Definition values (d : dict) : list V := map snd d.
Definition keys (d : dict) : list string := map fst d.
End Dict.

(** ** The [re] library, as far as the cog uses it *)

Module re.

Inductive Flag : Type :=
| NoFlag
| I.        (* re.I, IGNORECASE *)

(** A compiled pattern: [p.pattern] is the source it was compiled from and
    [p.flags] the flags given to [re.compile]. *)
Record Pattern : Type := { pattern : string; flags : Flag }.

(** What the library decides: the exception [re.compile(source, flags)]
    raises, if it raises one ([re.error] for a malformed source, but also
    [OverflowError] or [RecursionError] for some sources), and whether a
    compiled pattern matches a subject starting at a given position
    ([p.match(subject, pos)]). *)
Class Engine : Type := {
  compile_error : string -> Flag -> option Exn;
  match_at : Pattern -> string -> nat -> bool
}.

(** What [re.compile] accepts as its first argument. *)
Inductive Source : Type :=
| Str (source : string)
| Compiled (p : Pattern).

Section WithEngine.
Context {E : Engine}.

(** Does [re.compile(source, flags)] return a pattern. *)
Definition compiles (source : string) (f : Flag) : bool :=
  match compile_error source f with
  | None => true
  | Some _ => false
  end.

(** [re.compile(source, flags)] on a string. *)
Definition compile (source : string) (f : Flag) : Result Pattern :=
  match compile_error source f with
  | None => Ok {| pattern := source; flags := f |}
  | Some e => Raise e
  end.

(** [re.compile(x, flags)]: a compiled pattern is returned as it is when no
    flag is given, and refused with [ValueError] otherwise. *)
Definition compile_any (x : Source) (f : Flag) : Result Pattern :=
  match x with
  | Str source => compile source f
  | Compiled p =>
      match f with
      | NoFlag => Ok p
      | I => Raise ValueError
      end
  end.

(** [p.search(subject)]: is there a position of the subject, the end
    included, at which the pattern matches.  A match object is truthy,
    [None] is not, so the result is kept as a [bool]. *)
Definition search (p : Pattern) (subject : string) : bool :=
  existsb (match_at p subject) (seq 0 (S (String.length subject))).
End WithEngine.

End re.

(** ** [random] *)

(** The generator: a stream of raw draws and how many were taken. *)
Record Rng : Type := { draws : nat -> nat; taken : nat }.

Definition randbelow (g : Rng) (n : nat) : nat * Rng :=
  (draws g (taken g) mod n, {| draws := draws g; taken := S (taken g) |}).

(** [random.choice(l)]: [IndexError] on an empty sequence. *)
Definition choice {A : Type} (g : Rng) (l : list A) : Result A * Rng :=
  match l with
  | [] => (Raise IndexError, g)
  | x :: _ => let (k, g') := randbelow g (length l) in (Ok (nth k l x), g')
  end.

(** A generator whose next draw is [d]. *)
Definition rng_next (d : nat) (g : Rng) : Rng :=
  {| draws := fun i => if Nat.eqb i (taken g) then d else draws g i;
     taken := taken g |}.

(** ** Responses and triggers *)

(** A response [dict]: always a ["text"], a ["file"] key when an attachment
    was stored with it.  It has a key, so it is truthy. *)
Record Response : Type := { text : string; file : option string }.

(** A stored trigger, as [to_dict] writes it and [from_dict] reads it. *)
Record TriggerDict : Type := {
  d_name : string;
  d_pattern : option string;
  d_responses : list Response
}.

(** A trigger record as [from_dict] may be given it: the ["pattern"] is
    null, a string, or a compiled pattern, as in the record [__init__]
    registers as the default of the configuration. *)
Record RawDict : Type := {
  raw_name : string;
  raw_pattern : option re.Source;
  raw_responses : list Response
}.

Definition raw_of (d : TriggerDict) : RawDict :=
  {| raw_name := d_name d;
     raw_pattern := match d_pattern d with
                    | Some source => Some (re.Str source)
                    | None => None
                    end;
     raw_responses := d_responses d |}.

Record Author : Type := { bot : bool; mention : string; id : N }.

Module Trigger.

Record t : Type := {
  name : string;
  pattern : option re.Pattern;
  responses : list Response
}.

(** [Trigger(name)] *)
Definition init (name : string) : t :=
  {| name := name; pattern := None; responses := [] |}.

Section WithEngine.
Context {E : re.Engine}.

(** [Trigger.check]: a compiled pattern is truthy, an empty list is not. *)
Definition check (self : t) (author : Author) (content : string)
    (g : Rng) : Result (option Response) * Rng :=
  match pattern self, responses self with
  | None, _ => (Ok None, g)
  | Some _, [] => (Ok None, g)
  | Some p, _ :: _ =>
      if re.search p content then
        match choice g (responses self) with
        | (Ok r, g') => (Ok (Some r), g')
        | (Raise e, g') => (Raise e, g')
        end
      else (Ok None, g)
  end.

(** [Trigger.from_dict] on any record: [None] and the empty string are
    falsy, a compiled pattern is truthy. *)
Definition from_raw (d : RawDict) : Result t :=
  match raw_pattern d with
  | None | Some (re.Str EmptyString) =>
      Ok {| name := raw_name d; pattern := None;
            responses := raw_responses d |}
  | Some x =>
      match re.compile_any x re.I with
      | Ok p =>
          Ok {| name := raw_name d; pattern := Some p;
                responses := raw_responses d |}
      | Raise e => Raise e
      end
  end.

(** [Trigger.from_dict] on a stored record. *)
Definition from_dict (d : TriggerDict) : Result t := from_raw (raw_of d).

(** [Trigger.to_dict] *)
Definition to_dict (self : t) : TriggerDict :=
  {| d_name := name self;
     d_pattern := match pattern self with
                  | Some p => Some (re.pattern p)
                  | None => None
                  end;
     d_responses := responses self |}.
End WithEngine.

End Trigger.

(** ** Discord objects *)

Record Attachment : Type := { filename : string }.

Record Message : Type := {
  author : Author;
  content : string;
  attachments : list Attachment
}.

(** The invocation context of a command: [ctx.author] and [ctx.message]. *)
Record Context : Type := { ctx_message : Message }.
Definition ctx_author (ctx : Context) : Author := author (ctx_message ctx).

(** The four controls of the response browser, and any other emoji. *)
Inductive Emoji : Type :=
| Previous      (* '◀' *)
| Close         (* '❌' *)
| Bin           (* '🗑' *)
| Following     (* '▶' *)
| OtherEmoji (e : string).

(** A [reaction_add] event: the emoji and the user who reacted. *)
Record Reaction : Type := { emoji : Emoji; user : N }.

(** An [Embed] as [info] fills it. *)
Record Embed : Type := {
  embed_author : string;
  description : string;
  fields : list (string * string)
}.

(** What the cog does to the outside, in the order it does it. *)
Inductive Event : Type :=
| Send (content : string) (file : option (string * string))
      (* [channel.send] / [ctx.send]; the file is (folder, name) *)
| SendEmbed (e : Embed)
| ConfigSet (l : list TriggerDict)      (* [config.triggers.set] *)
| Tick                                  (* [ctx.tick] *)
| Edit (content : string)               (* [msg.edit] *)
| AddReaction (e : Emoji)
| RemoveReaction (e : Emoji) (user : N)
| ClearReactions.

(** ** The cog and its surroundings *)

Record World : Type := {
  triggers : dict Trigger.t;        (* self.triggers *)
  user_id : N;                      (* self.bot.user.id *)
  config : option (list TriggerDict);
                                    (* the value stored for config.triggers,
                                       [None] while none was ever set *)
  files : dict (list string);       (* attachment folders and their files *)
  rng : Rng;
  log : list Event                  (* oldest first *)
}.

Definition set_triggers (w : World) (d : dict Trigger.t) : World :=
  {| triggers := d; user_id := user_id w; config := config w;
     files := files w; rng := rng w; log := log w |}.
Definition set_config (w : World) (c : option (list TriggerDict)) : World :=
  {| triggers := triggers w; user_id := user_id w; config := c;
     files := files w; rng := rng w; log := log w |}.
Definition set_files (w : World) (f : dict (list string)) : World :=
  {| triggers := triggers w; user_id := user_id w; config := config w;
     files := f; rng := rng w; log := log w |}.
Definition set_rng (w : World) (g : Rng) : World :=
  {| triggers := triggers w; user_id := user_id w; config := config w;
     files := files w; rng := g; log := log w |}.
Definition set_log (w : World) (l : list Event) : World :=
  {| triggers := triggers w; user_id := user_id w; config := config w;
     files := files w; rng := rng w; log := l |}.

(** Computations: a result or an exception, and the world they leave. *)
Definition M (A : Type) : Type := World -> Result A * World.

Definition ret {A : Type} (a : A) : M A := fun w => (Ok a, w).

Definition bind {A B : Type} (m : M A) (k : A -> M B) : M B :=
  fun w => match m w with
           | (Ok a, w') => k a w'
           | (Raise e, w') => (Raise e, w')
           end.

Definition raise {A : Type} (e : Exn) : M A := fun w => (Raise e, w).

Declare Scope pal_scope.
Delimit Scope pal_scope with pal.
Notation "x <- m ;; k" := (bind m (fun x => k))
  (at level 61, m at next level, right associativity) : pal_scope.
Notation "m ;; k" := (bind m (fun _ => k))
  (at level 61, right associativity) : pal_scope.
Open Scope pal_scope.

Definition lift {A : Type} (r : Result A) : M A := fun w => (r, w).
Definition get : M World := fun w => (Ok w, w).
Definition emit (e : Event) : M unit :=
  fun w => (Ok tt, set_log w ((log w ++ [e])%list)).

(** [try: m  except exn: h], for the one exception class [exn] stands for. *)
Definition try_except {A : Type} (m : M A) (handles : Exn -> bool) (h : M A)
    : M A :=
  fun w => match m w with
           | (Raise e, w') => if handles e then h w' else (Raise e, w')
           | r => r
           end.

Definition is_FileNotFoundError (e : Exn) : bool :=
  match e with FileNotFoundError => true | _ => false end.
Definition is_ReError (e : Exn) : bool :=
  match e with ReError => true | _ => false end.

(** *** Attachment files *)

(** A file in a trigger's folder: the trigger's name and the file's name.
    [get_trigger_folder] builds [cog_data_path / "trigger_files" / name] with
    [pathlib]; the pair stands for that path when both names are single path
    components (see [plain_name]), on a file system that tells upper from
    lower case.  Other names nest, coincide or leave the folder, which the
    pair does not show. *)
Definition path : Type := (string * string)%type.

Definition file_exists (fs : dict (list string)) (p : path) : bool :=
  match dict_get fs (fst p) with
  | Some names => existsb (String.eqb (snd p)) names
  | None => false
  end.

(** [path.open('rb')] *)
Definition open_rb (p : path) : M unit :=
  fun w => if file_exists (files w) p then (Ok tt, w)
           else (Raise FileNotFoundError, w).

(** [os.makedirs(folder, exist_ok=True)] *)
Definition makedirs (folder : string) : M unit :=
  fun w => match dict_get (files w) folder with
           | Some _ => (Ok tt, w)
           | None => (Ok tt, set_files w (dict_set (files w) folder []))
           end.

(** [path.open('wb')] followed by writing the file; the folder must exist. *)
Definition open_wb (p : path) : M unit :=
  fun w => match dict_get (files w) (fst p) with
           | Some names =>
               if existsb (String.eqb (snd p)) names then (Ok tt, w)
               else (Ok tt,
                     set_files w (dict_set (files w) (fst p) ((names ++ [snd p])%list)))
           | None => (Raise FileNotFoundError, w)
           end.

(** [os.remove(path)] *)
Definition os_remove (p : path) : M unit :=
  fun w => match dict_get (files w) (fst p) with
           | Some names =>
               if existsb (String.eqb (snd p)) names then
                 (Ok tt,
                  set_files w
                    (dict_set (files w) (fst p)
                       (filter (fun n => negb (String.eqb (snd p) n)) names)))
               else (Raise FileNotFoundError, w)
           | None => (Raise FileNotFoundError, w)
           end.

(** [shutil.rmtree(folder)], for a folder that holds files only. *)
Definition rmtree (folder : string) : M unit :=
  fun w => match dict_get (files w) folder with
           | Some _ => (Ok tt, set_files w (dict_del (files w) folder))
           | None => (Raise FileNotFoundError, w)
           end.

(** *** The mention pattern *)

(** [s] without the prefix [p], when it has it. *)
Fixpoint strip_prefix (p s : string) : option string :=
  match p, s with
  | EmptyString, _ => Some s
  | String a p', String b s' =>
      if Ascii.eqb a b then strip_prefix p' s' else None
  | String _ _, EmptyString => None
  end.

(** The longest run of spaces [s] starts with: what [" *"] matches. *)
Fixpoint leading_spaces (s : string) : string :=
  match s with
  | String " " s' => String " " (leading_spaces s')
  | _ => EmptyString
  end.

(** [str(n)] for a non-negative integer. *)
Definition str_of_N (n : N) : string := NilEmpty.string_of_uint (N.to_uint n).

(** What ["{id}> *"] matches at the start of [s]. *)
Definition mention_tail (ids s : string) : option string :=
  match strip_prefix ids s with
  | Some s1 =>
      match strip_prefix ">" s1 with
      | Some s2 => Some (ids ++ ">" ++ leading_spaces s2)
      | None => None
      end
  | None => None
  end.

(** [re.compile(f'<@!?{uid}> *').match(content)]: [group(0)] of the match, or
    [None].  The optional ["!"] is tried first (the quantifier is greedy) and
    given up when the rest does not match. *)
Definition mention_match (uid : N) (content : string) : option string :=
  match strip_prefix "<@" content with
  | None => None
  | Some s0 =>
      let with_bang :=
        match strip_prefix "!" s0 with
        | Some s1 => mention_tail (str_of_N uid) s1
        | None => None
        end in
      match with_bang with
      | Some m => Some ("<@!" ++ m)
      | None =>
          match mention_tail (str_of_N uid) s0 with
          | Some m => Some ("<@" ++ m)
          | None => None
          end
      end
  end.

(** ** The cog *)

Definition ALPHANUMERIC_CHARACTERS : string :=
  "abcdefghijklmnopqrstuvwxyzABCDEFGHIJKLMNOPQRSTUVWXYZ0123456789".

Definition emoji_eqb (a b : Emoji) : bool :=
  match a, b with
  | Previous, Previous | Close, Close | Bin, Bin | Following, Following => true
  | OtherEmoji x, OtherEmoji y => String.eqb x y
  | _, _ => false
  end.

Module Pal.

Definition msg_already_exists : string := "This trigger already exists! :x:".
Definition msg_created (trigger_name : string) : string :=
  "Trigger `" ++ trigger_name ++ "` has been created!".
Definition msg_protected_pattern : string :=
  "You cannot change the pattern for the `default` trigger! :x:" ++ nl ++
  "If you want to disable it, please remove all of the responses instead.".
Definition msg_invalid_pattern : string := "Invalid pattern! :x:".
Definition msg_loading : string := "Loading...".
Definition msg_no_more : string := "There's no more responses to delete!".
Definition msg_protected_delete : string :=
  "You cannot delete the `default` trigger! :x:" ++ nl ++
  "If you want to disable it, please remove all of the responses instead.".
Definition msg_deleted (trigger_name : string) : string :=
  "Trigger `" ++ trigger_name ++ "` has been deleted!".
Definition msg_not_found : string := "This trigger doesn't exist! :x:".

Definition emojis : list Emoji := [Previous; Close; Bin; Following].

(** A trigger object is shared with [self.triggers]: changing it in place
    shows in the registry for as long as it is registered under its name. *)
Definition mutate (trigger : Trigger.t) : M unit :=
  fun w => match dict_get (triggers w) (Trigger.name trigger) with
           | Some _ =>
               (Ok tt,
                set_triggers w
                  (dict_set (triggers w) (Trigger.name trigger) trigger))
           | None => (Ok tt, w)
           end.

(** [self.triggers[key] = trigger] *)
Definition assign (key : string) (trigger : Trigger.t) : M unit :=
  fun w => (Ok tt, set_triggers w (dict_set (triggers w) key trigger)).

(** [del self.triggers[key]] *)
Definition unassign (key : string) : M unit :=
  fun w => match dict_get (triggers w) key with
           | Some _ => (Ok tt, set_triggers w (dict_del (triggers w) key))
           | None => (Raise KeyError, w)
           end.

(** [random.choice(l)] on the cog's generator. *)
Definition random_choice {A : Type} (l : list A) : M A :=
  fun w => let (r, g) := choice (rng w) l in (r, set_rng w g).

(** [''.join(random.choice(ALPHANUMERIC_CHARACTERS) for i in range(n))] *)
Fixpoint random_name (n : nat) : M string :=
  match n with
  | O => ret ""
  | S n' =>
      c <- random_choice (list_ascii_of_string ALPHANUMERIC_CHARACTERS) ;;
      rest <- random_name n' ;;
      ret (String c rest)
  end.

Fixpoint add_reactions (reactions : list Emoji) : M unit :=
  match reactions with
  | [] => ret tt
  | r :: reactions' => emit (AddReaction r) ;; add_reactions reactions'
  end.

(** [get_trigger]: a [Trigger] object is truthy, so callers test for
    [None] only. *)
Definition get_trigger (trigger_name : string) : M (option Trigger.t) :=
  fun w => (Ok (dict_get (triggers w) trigger_name), w).

(** [get_trigger_folder]: [trigger_files / trigger.name], known by the
    trigger's name. *)
Definition get_trigger_folder (trigger : Trigger.t) : string :=
  Trigger.name trigger.

(** [TriggerConverter.convert] *)
Definition convert (argument : string) : M Trigger.t :=
  trigger <- get_trigger argument ;;
  match trigger with
  | Some t => ret t
  | None => raise (BadArgument msg_not_found)
  end.

(** A command whose parameter is annotated with [TriggerConverter]: the
    argument is converted before the command runs. *)
Definition invoke (argument : string) (command : Trigger.t -> M unit)
    : M unit :=
  trigger <- convert argument ;;
  command trigger.

(** The default [__init__] registers for [config.triggers]: its pattern is
    compiled, not a string. *)
Definition registered_triggers : list RawDict :=
  [{| raw_name := "default";
      raw_pattern := Some (re.Compiled {| re.pattern := "^$";
                                          re.flags := re.NoFlag |});
      raw_responses := [] |}].

(** [await self.config.triggers()]: the stored value, or the registered
    default while nothing was stored. *)
Definition stored_triggers (w : World) : list RawDict :=
  match config w with
  | Some trigger_list => map raw_of trigger_list
  | None => registered_triggers
  end.

(** The check [remove] gives to [wait_for]. *)
Definition wait_check (ctx : Context) (r : Reaction) : bool :=
  existsb (emoji_eqb (emoji r)) emojis && N.eqb (user r) (id (ctx_author ctx)).

(** A page of the browser for one response. *)
Definition page_of (r : Response) : string :=
  match file r with
  | Some f => text r ++ nl ++ nl ++ "**File:** " ++ f
  | None => text r
  end.

(** The text [info] shows for a response: [text[:1020] + "..."] when it has
    more than 1024 characters. *)
Definition shown_text (r : Response) : string :=
  if (1024 <? String.length (text r))%nat then take 1020 (text r) ++ "..."
  else text r.

(** The fields [info] adds, for the responses numbered from [i]. *)
Fixpoint info_fields (i : nat) (rs : list Response) : list (string * string) :=
  match rs with
  | [] => []
  | r :: rs' =>
      ("Response #" ++ str_of_N (N.of_nat i),
       match file r with
       | Some f => shown_text r ++ nl ++ nl ++ "**File:** " ++ f
       | None => shown_text r
       end) :: info_fields (S i) rs'
  end.

(** [pal info]; a missing pattern is formatted as ["None"]. *)
Definition info (ctx : Context) (trigger : Trigger.t) : M unit :=
  let source := match Trigger.pattern trigger with
                | Some p => re.pattern p
                | None => "None"
                end in
  emit (SendEmbed
          {| embed_author := "Trigger: " ++ Trigger.name trigger;
             description := "**Pattern:**" ++ nl ++ nl ++ "`" ++ source ++ "`";
             fields := info_fields 1 (Trigger.responses trigger) |}).

Section WithEngine.
Context {E : re.Engine}.

(** The dictionary comprehension of [initialize]. *)
Fixpoint load (trigger_list : list RawDict) (acc : dict Trigger.t)
    : Result (dict Trigger.t) :=
  match trigger_list with
  | [] => Ok acc
  | d :: rest =>
      match Trigger.from_raw d with
      | Ok trigger => load rest (dict_set acc (raw_name d) trigger)
      | Raise e => Raise e
      end
  end.

(** [initialize]; the bot's user is known once [wait_until_ready]
    returns, and [user_id] is what the mention pattern is built from. *)
Definition initialize : M unit :=
  fun w => match load (stored_triggers w) [] with
           | Ok d => (Ok tt, set_triggers w d)
           | Raise e => (Raise e, w)
           end.

(** [save] *)
Definition save : M unit :=
  fun w =>
    let trigger_list := map Trigger.to_dict (values (triggers w)) in
    (Ok tt,
     set_log (set_config w (Some trigger_list))
             ((log w ++ [ConfigSet trigger_list])%list)).

(** [t.check(author, content)] on the cog's generator. *)
Definition check (t : Trigger.t) (author : Author) (content : string)
    : M (option Response) :=
  fun w => let (r, g) := Trigger.check t author content (rng w) in
           (r, set_rng w g).

(** The [for] loop of [on_message]; [break] ends the recursion. *)
Fixpoint dispatch (author : Author) (content : string)
    (ts : list Trigger.t) : M unit :=
  match ts with
  | [] => ret tt
  | t :: ts' =>
      response <- check t author content ;;
      match response with
      | Some r =>
          match file r with
          | Some f =>
              let p := (get_trigger_folder t, f) in
              open_rb p ;;
              emit (Send (mention author ++ " " ++ text r) (Some p))
          | None => emit (Send (mention author ++ " " ++ text r) None)
          end
      | None => dispatch author content ts'
      end
  end.

(** [on_message], once [initialize] has set [_ready]. *)
Definition on_message (message : Message) : M unit :=
  if bot (author message) then ret tt
  else
    w <- get ;;
    match mention_match (user_id w) (content message) with
    | None => ret tt
    | Some group0 =>
        dispatch (author message)
                 (drop (String.length group0) (content message))
                 (values (triggers w))
    end.

(** [pal create] *)
Definition create (ctx : Context) (trigger_name : string) : M unit :=
  trigger <- get_trigger trigger_name ;;
  match trigger with
  | Some _ => emit (Send msg_already_exists None)
  | None =>
      assign trigger_name (Trigger.init trigger_name) ;;
      save ;;
      emit (Send (msg_created trigger_name) None)
  end.

(** [pal add] *)
Definition add (ctx : Context) (trigger : Trigger.t) (response : string)
    : M unit :=
  stored <- match attachments (ctx_message ctx) with
            | a :: _ =>
                let folder := get_trigger_folder trigger in
                makedirs folder ;;
                prefix <- random_name 8 ;;
                let name := prefix ++ "_" ++ filename a in
                open_wb (folder, name) ;;
                ret (Some name)
            | [] => ret None
            end ;;
  let dict_response := {| text := response; file := stored |} in
  let trigger :=
    {| Trigger.name := Trigger.name trigger;
       Trigger.pattern := Trigger.pattern trigger;
       Trigger.responses :=
         (Trigger.responses trigger ++ [dict_response])%list |} in
  assign (Trigger.name trigger) trigger ;;
  save ;;
  emit Tick.

(** [pal pattern] *)
Definition pattern (ctx : Context) (trigger : Trigger.t) (source : string)
    : M unit :=
  if String.eqb (Trigger.name trigger) "default" then
    emit (Send msg_protected_pattern None)
  else
    compiled <- try_except
                  (p <- lift (re.compile source re.I) ;; ret (Some p))
                  is_ReError
                  (emit (Send msg_invalid_pattern None) ;; ret None) ;;
    match compiled with
    | None => ret tt
    | Some compiled_pattern =>
        let trigger :=
          {| Trigger.name := Trigger.name trigger;
             Trigger.pattern := Some compiled_pattern;
             Trigger.responses := Trigger.responses trigger |} in
        assign (Trigger.name trigger) trigger ;;
        save ;;
        emit Tick
    end.

(** The [while True] loop of [remove].  [events] are the reactions
    [wait_for] lets through, in the order they arrive; when there is none
    left the wait times out. *)
Fixpoint remove_loop (trigger : Trigger.t) (folder_path : string)
    (events : list Reaction) (pages : list string) (page : Z) : M unit :=
  shown <- lift (getitem pages page) ;;
  emit (Edit shown) ;;
  match events with
  | [] => ret tt                                  (* TimeoutError: break *)
  | reaction :: events' =>
      let continue (trigger : Trigger.t) (pages : list string) (page : Z) :=
        page <- lift (pymod page (Z.of_nat (length pages))) ;;
        emit (RemoveReaction (emoji reaction) (user reaction)) ;;
        remove_loop trigger folder_path events' pages page in
      match emoji reaction with
      | Previous => continue trigger pages (page - 1)%Z
      | Following => continue trigger pages (page + 1)%Z
      | Close => ret tt                           (* break *)
      | Bin =>
          pages <- lift (delitem pages page) ;;
          r <- lift (getitem (Trigger.responses trigger) page) ;;
          match file r with
          | Some f =>
              try_except (os_remove (folder_path, f))
                         is_FileNotFoundError (ret tt)
          | None => ret tt
          end ;;
          rest <- lift (delitem (Trigger.responses trigger) page) ;;
          let trigger :=
            {| Trigger.name := Trigger.name trigger;
               Trigger.pattern := Trigger.pattern trigger;
               Trigger.responses := rest |} in
          mutate trigger ;;
          match pages with
          | [] => emit (Send msg_no_more None)    (* break *)
          | _ :: _ => continue trigger pages page
          end
      | OtherEmoji _ => continue trigger pages page
      end
  end.

(** [pal remove]; [reactions] are the [reaction_add] events that arrive
    while the browser is open. *)
Definition remove (ctx : Context) (trigger : Trigger.t)
    (reactions : list Reaction) : M unit :=
  let pages := map page_of (Trigger.responses trigger) in
  let folder_path := get_trigger_folder trigger in
  emit (Send msg_loading None) ;;
  add_reactions emojis ;;
  remove_loop trigger folder_path (filter (wait_check ctx) reactions)
              pages 0%Z ;;
  emit ClearReactions.

(** [pal delete] *)
Definition delete (ctx : Context) (trigger : Trigger.t) : M unit :=
  if String.eqb (Trigger.name trigger) "default" then
    emit (Send msg_protected_delete None)
  else
    let folder_path := get_trigger_folder trigger in
    try_except (rmtree folder_path) is_FileNotFoundError (ret tt) ;;
    unassign (Trigger.name trigger) ;;
    save ;;
    emit (Send (msg_deleted (Trigger.name trigger)) None).
End WithEngine.

End Pal.

(** ** A small engine for examples

    Sources with as many ["("] as [")"] compile, the others raise [re.error];
    the repetition count of ["a{4294967296}"] is too large and raises
    [OverflowError].  A compiled source matches where the subject continues
    with it, letter case ignored under [re.I]. *)

Module Literal.

Definition lower (c : ascii) : ascii :=
  let n := nat_of_ascii c in
  if ((65 <=? n) && (n <=? 90))%nat then ascii_of_nat (n + 32) else c.

Fixpoint count (c : ascii) (s : string) : nat :=
  match s with
  | EmptyString => 0
  | String a s' => (if Ascii.eqb a c then 1 else 0) + count c s'
  end.

Fixpoint continues (fold : bool) (p s : string) : bool :=
  match p, s with
  | EmptyString, _ => true
  | String a p', String b s' =>
      (if fold then Ascii.eqb (lower a) (lower b) else Ascii.eqb a b)
      && continues fold p' s'
  | String _ _, EmptyString => false
  end.

Definition engine : re.Engine :=
  {| re.compile_error := fun source _ =>
       if String.eqb source "a{4294967296}" then Some OverflowError
       else if (count "(" source =? count ")" source)%nat then None
       else Some ReError;
     re.match_at := fun p subject pos =>
       continues (match re.flags p with re.I => true | re.NoFlag => false end)
                 (re.pattern p) (drop pos subject) |}.

End Literal.

(** ** Notions and data the statements use *)

(** A record is well formed when its stored pattern, if it has one, is a
    source that compiles. *)
Definition well_formed `{E : re.Engine} (d : TriggerDict) : bool :=
  match d_pattern d with
  | None | Some EmptyString => true
  | Some source => re.compiles source re.I
  end.

(** The record [d] with its pattern set to null. *)
Definition without_pattern (d : TriggerDict) : TriggerDict :=
  {| d_name := d_name d; d_pattern := None; d_responses := d_responses d |}.

Definition empty_pattern_record : TriggerDict :=
  {| d_name := "greet"; d_pattern := Some "";
     d_responses := [{| text := "hello!"; file := None |}] |}.

Definition greet_record : TriggerDict :=
  {| d_name := "greet"; d_pattern := Some "hi";
     d_responses := [{| text := "hello!"; file := Some "a1B2c3D4_img.png" |}] |}.


(** [k] spaces. *)
Fixpoint spaces (k : nat) : string :=
  match k with
  | O => ""
  | S k' => String " " (spaces k')
  end.

Definition starts_with_space (s : string) : bool :=
  match s with
  | String c _ => Ascii.eqb c " "
  | EmptyString => false
  end.

(** The two ways a client writes a mention of the user [uid]. *)
Definition mention_token (uid : N) (bang : bool) : string :=
  "<@" ++ (if bang then "!" else "") ++ str_of_N uid ++ ">".

(** What [on_message] leaves when the trigger [t] answers with [r] and the
    generator is then [g']: the reply, or the failure to open the file. *)
Definition reply_outcome (w : World) (a : Author) (t : Trigger.t)
    (r : Response) (g' : Rng) : Result unit * World :=
  match file r with
  | None =>
      (Ok tt,
       set_log (set_rng w g')
               ((log w ++ [Send (mention a ++ " " ++ text r) None])%list))
  | Some f =>
      if file_exists (files w) (Trigger.name t, f) then
        (Ok tt,
         set_log (set_rng w g')
                 ((log w ++ [Send (mention a ++ " " ++ text r)
                                  (Some (Trigger.name t, f))])%list))
      else (Raise FileNotFoundError, set_rng w g')
  end.

(** *** A small installation *)

Definition zeros : Rng := {| draws := fun _ => 0; taken := 0 |}.

Definition alice : Author := {| bot := false; mention := "<@7>"; id := 7 |}.
Definition alice_ctx : Context :=
  {| ctx_message :=
       {| author := alice; content := "[p]pal"; attachments := [] |} |}.

Definition compiled (source : string) : re.Pattern :=
  {| re.pattern := source; re.flags := re.I |}.

Definition hello : Response := {| text := "hello!"; file := None |}.
Definition picture : Response :=
  {| text := "look"; file := Some "a1B2c3D4_img.png" |}.

Definition default_trigger : Trigger.t :=
  {| Trigger.name := "default"; Trigger.pattern := Some (compiled "bye");
     Trigger.responses := [] |}.
Definition greet : Trigger.t :=
  {| Trigger.name := "greet"; Trigger.pattern := Some (compiled "hi");
     Trigger.responses := [hello] |}.
Definition show : Trigger.t :=
  {| Trigger.name := "show"; Trigger.pattern := Some (compiled "HI");
     Trigger.responses := [picture] |}.
Definition tabbed : Trigger.t :=
  {| Trigger.name := "tabbed"; Trigger.pattern := Some (compiled (tab ++ "hi"));
     Trigger.responses := [{| text := "tab seen"; file := None |}] |}.

Definition registry_of (ts : list Trigger.t) : dict Trigger.t :=
  map (fun t => (Trigger.name t, t)) ts.

(** The bot's user is 1; the stored configuration is the registry's. *)
Definition world_of (ts : list Trigger.t) (fs : dict (list string)) : World :=
  {| triggers := registry_of ts;
     user_id := 1;
     config := Some (map (Trigger.to_dict) ts);
     files := fs;
     rng := zeros;
     log := [] |}.

Definition hi_message : Message :=
  {| author := alice; content := "<@1> hi there"; attachments := [] |}.
Definition plain_message : Message :=
  {| author := alice; content := "hi there"; attachments := [] |}.
Definition tab_message : Message :=
  {| author := alice; content := "<@1>" ++ tab ++ "hi"; attachments := [] |}.

(** *** The browser, seen from the response list *)

Definition with_responses (t : Trigger.t) (rs : list Response) : Trigger.t :=
  {| Trigger.name := Trigger.name t; Trigger.pattern := Trigger.pattern t;
     Trigger.responses := rs |}.

(** The responses a browsing session leaves, given the controls pressed, the
    responses it starts from and the page it shows. *)
Fixpoint browse (controls : list Emoji) (rs : list Response) (page : Z)
    : list Response :=
  match controls with
  | [] => rs
  | c :: controls' =>
      let n := Z.of_nat (length rs) in
      match c with
      | Previous => browse controls' rs ((page - 1) mod n)%Z
      | Following => browse controls' rs ((page + 1) mod n)%Z
      | Close => rs
      | Bin =>
          match remove_nth (Z.to_nat page) rs with
          | [] => []
          | r :: rs' =>
              browse controls' (r :: rs')
                     (page mod Z.of_nat (length (r :: rs')))%Z
          end
      | OtherEmoji _ => browse controls' rs (page mod n)%Z
      end
  end.

(** An event that does not write the configuration. *)
Definition quiet (e : Event) : bool :=
  match e with
  | ConfigSet _ => false
  | _ => true
  end.

Definition bin_by (a : Author) : Reaction := {| emoji := Bin; user := id a |}.

(** What [remove] does to the message before the first page is shown. *)
Definition opening : list Event :=
  [Send Pal.msg_loading None; AddReaction Previous; AddReaction Close;
   AddReaction Bin; AddReaction Following].

Definition default_busy : Trigger.t :=
  {| Trigger.name := "default"; Trigger.pattern := Some (compiled "bye");
     Trigger.responses := [hello; picture] |}.

Definition picture_files : dict (list string) :=
  [("default", ["a1B2c3D4_img.png"])].

(** *** Registries *)

(** A registry as a Python [dict] filled by the cog: no key twice, and every
    trigger under its own name. *)
Definition registry_ok (d : dict Trigger.t) : Prop :=
  NoDup (keys d) /\ Forall (fun kt => fst kt = Trigger.name (snd kt)) d.

(** A trigger whose pattern, if any, is what [re.compile(source, re.I)]
    returns for a non-empty source. *)
Definition reloadable `{E : re.Engine} (t : Trigger.t) : bool :=
  match Trigger.pattern t with
  | None => true
  | Some p =>
      match re.flags p with re.I => true | re.NoFlag => false end
      && re.compiles (re.pattern p) re.I
      && negb (String.eqb (re.pattern p) "")
  end.

(** *** What a computation keeps *)

(** [m] keeps [P]: from a world where [P] holds it leaves one where [P]
    holds, whether it returns or raises. *)
Definition preserves {A : Type} (P : World -> Prop) (m : M A) : Prop :=
  forall w, P w -> P (snd (m w)).

(** The parts of the world only the administrative commands may change. *)
Definition same_state (w0 w : World) : Prop :=
  triggers w = triggers w0 /\ config w = config w0 /\ files w = files w0 /\
  user_id w = user_id w0.

Definition is_send (e : Event) : bool :=
  match e with
  | Send _ _ => true
  | _ => false
  end.

(** A predicate on the world that looks at nothing but the registry, the
    stored configuration, the files and the user. *)
Definition state_only (P : World -> Prop) : Prop :=
  forall w w',
    triggers w' = triggers w -> config w' = config w ->
    files w' = files w -> user_id w' = user_id w -> P w -> P w'.


(** A predicate on the world that looks at nothing but the registry, the
    stored configuration and the user: not at the files, the generator or
    what was sent. *)
Definition memory_only (P : World -> Prop) : Prop :=
  forall w w',
    triggers w' = triggers w -> config w' = config w ->
    user_id w' = user_id w -> P w -> P w'.

Definition registry_kept (w : World) : Prop := registry_ok (triggers w).

Definition carol : Author := {| bot := false; mention := "<@9>"; id := 9 |}.

(** *** Files *)



Definition press (c : Emoji) (a : Author) : Reaction :=
  {| emoji := c; user := id a |}.







(** The generator after [n] more draws. *)
Definition after_draws (n : nat) (g : Rng) : Rng :=
  {| draws := draws g; taken := n + taken g |}.

Definition is_digit (c : ascii) : bool :=
  ((48 <=? nat_of_ascii c) && (nat_of_ascii c <=? 57))%nat.

Definition digits (s : string) : bool :=
  forallb is_digit (list_ascii_of_string s).


Definition with_pattern (t : Trigger.t) (p : option re.Pattern) : Trigger.t :=
  {| Trigger.name := Trigger.name t; Trigger.pattern := p;
     Trigger.responses := Trigger.responses t |}.

(** The value of the field [info] shows for a response. *)
Definition field_value (r : Response) : string :=
  match file r with
  | Some f => Pal.shown_text r ++ nl ++ nl ++ "**File:** " ++ f
  | None => Pal.shown_text r
  end.

(** *** Setting a trigger up *)

(** [pal create name], [pal pattern name source], [pal add name response]. *)
Definition set_up `{E : re.Engine} (ctx : Context) (trigger_name source
    response : string) : M unit :=
  Pal.create ctx trigger_name ;;
  Pal.invoke trigger_name (fun t => Pal.pattern ctx t source) ;;
  Pal.invoke trigger_name (fun t => Pal.add ctx t response).

Definition plain_ctx (ctx : Context) : bool :=
  match attachments (ctx_message ctx) with
  | [] => true
  | _ :: _ => false
  end.

(** *** Reading stored records *)

(** The exception reading the record raises, if it raises one. *)
Definition read_error `{E : re.Engine} (d : TriggerDict) : option Exn :=
  match d_pattern d with
  | None | Some EmptyString => None
  | Some source => re.compile_error source re.I
  end.

(** The exception of the first record that cannot be read. *)
Fixpoint first_error `{E : re.Engine} (l : list TriggerDict) : option Exn :=
  match l with
  | [] => None
  | d :: l' =>
      match read_error d with
      | Some e => Some e
      | None => first_error l'
      end
  end.

(** *** Names as path components *)



(** * Properties *)

Unset Implicit Arguments.

(** ** Lists, strings and dictionaries *)

Lemma map_seq_nth {A : Type} (l : list A) (x : A) :
  map (fun d => nth (d mod length l) l x) (seq 0 (length l)) = l.
Proof.
  apply nth_ext with (d := nth 0 l x) (d' := x).
  - now rewrite length_map, length_seq.
  - intros k Hk. rewrite length_map, length_seq in Hk.
    rewrite (nth_indep _ _ (nth (0 mod length l) l x)).
    + rewrite (map_nth (fun d => nth (d mod length l) l x)).
      rewrite seq_nth by assumption. simpl.
      now rewrite Nat.mod_small by assumption.
    + now rewrite length_map, length_seq.
Qed.

Lemma randbelow_rng_next (d n : nat) (g : Rng) :
  fst (randbelow (rng_next d g) n) = d mod n.
Proof. unfold randbelow, rng_next. simpl. now rewrite Nat.eqb_refl. Qed.

Lemma search_iff `{E : re.Engine} (p : re.Pattern) (subject : string) :
  re.search p subject = true <->
  exists pos, pos <= String.length subject /\ re.match_at p subject pos = true.
Proof.
  unfold re.search. rewrite existsb_exists. split.
  - intros (pos & Hin & Hm). apply in_seq in Hin. exists pos. split; [lia | easy].
  - intros (pos & Hle & Hm). exists pos. split; [apply in_seq; lia | easy].
Qed.

Lemma strip_prefix_app (p r : string) : strip_prefix p (p ++ r) = Some r.
Proof.
  induction p as [| a p IH]; simpl; [reflexivity |].
  now rewrite Ascii.eqb_refl.
Qed.

Lemma strip_prefix_Some (p s r : string) :
  strip_prefix p s = Some r -> s = p ++ r.
Proof.
  revert s. induction p as [| a p IH]; intros s H; simpl in *.
  - now inversion H.
  - destruct s as [| b s]; [discriminate |].
    destruct (Ascii.eqb a b) eqn:Hab; [| discriminate].
    apply Ascii.eqb_eq in Hab. subst b. f_equal. now apply IH.
Qed.

Lemma prefix_app (p r : string) : String.prefix p (p ++ r) = true.
Proof.
  induction p as [| a p IH]; simpl.
  - now destruct r.
  - destruct (ascii_dec a a); [assumption | contradiction].
Qed.

Lemma append_assoc (a b c : string) : (a ++ b) ++ c = a ++ (b ++ c).
Proof. induction a as [| x a IH]; simpl; [reflexivity | now rewrite IH]. Qed.

Lemma length_append (a b : string) :
  String.length (a ++ b) = String.length a + String.length b.
Proof. induction a as [| x a IH]; simpl; [reflexivity | now rewrite IH]. Qed.

Lemma drop_app (a b : string) : drop (String.length a) (a ++ b) = b.
Proof. induction a as [| x a IH]; simpl; [now destruct b | assumption]. Qed.

Lemma leading_spaces_app (k : nat) (rest : string) :
  starts_with_space rest = false ->
  leading_spaces (spaces k ++ rest) = spaces k.
Proof.
  intros Hrest. induction k as [| k IH]; simpl.
  - destruct rest as [| c rest]; [reflexivity |].
    simpl in Hrest.
    destruct c as [[] [] [] [] [] [] [] []]; try reflexivity; discriminate.
  - now rewrite IH.
Qed.

Lemma leading_spaces_split (s : string) :
  exists rest,
    s = leading_spaces s ++ rest /\ starts_with_space rest = false.
Proof.
  induction s as [| c s (rest & Hs & Hrest)].
  - now exists "".
  - destruct (Ascii.eqb c " ") eqn:Hc.
    + apply Ascii.eqb_eq in Hc. subst c. exists rest. simpl. split.
      * now rewrite <- Hs.
      * assumption.
    + exists (String c s). split.
      * destruct c as [[] [] [] [] [] [] [] []]; try reflexivity; discriminate.
      * simpl. assumption.
Qed.

(** The decimal form of an identifier does not start with ["!"]. *)
Lemma str_of_N_no_bang (n : N) (s : string) :
  strip_prefix "!" (str_of_N n ++ ">" ++ s) = None.
Proof.
  unfold str_of_N. now destruct (N.to_uint n).
Qed.

Lemma mention_tail_app (ids : string) (k : nat) (rest : string) :
  starts_with_space rest = false ->
  mention_tail ids (ids ++ ">" ++ spaces k ++ rest)
  = Some (ids ++ ">" ++ spaces k).
Proof.
  intros Hrest. unfold mention_tail.
  rewrite strip_prefix_app. rewrite (strip_prefix_app ">").
  now rewrite leading_spaces_app.
Qed.

(** The mention pattern matches a token followed by spaces, and takes every
    space. *)
Lemma mention_match_token (uid : N) (bang : bool) (k : nat) (rest : string) :
  starts_with_space rest = false ->
  mention_match uid (mention_token uid bang ++ spaces k ++ rest)
  = Some (mention_token uid bang ++ spaces k).
Proof.
  intros Hrest. unfold mention_match, mention_token.
  pose proof (mention_tail_app (str_of_N uid) k rest Hrest) as Ht.
  destruct bang.
  - replace (("<@" ++ "!" ++ str_of_N uid ++ ">") ++ spaces k ++ rest)
      with ("<@" ++ "!" ++ str_of_N uid ++ ">" ++ spaces k ++ rest)
      by (now rewrite !append_assoc).
    rewrite (strip_prefix_app "<@"). cbv zeta.
    rewrite (strip_prefix_app "!"), Ht.
    now rewrite !append_assoc.
  - replace (("<@" ++ "" ++ str_of_N uid ++ ">") ++ spaces k ++ rest)
      with ("<@" ++ str_of_N uid ++ ">" ++ spaces k ++ rest)
      by (now rewrite !append_assoc).
    rewrite (strip_prefix_app "<@"). cbv zeta.
    rewrite str_of_N_no_bang, Ht.
    now rewrite !append_assoc.
Qed.

Lemma mention_tail_Some (ids s m : string) :
  mention_tail ids s = Some m ->
  exists rest,
    s = m ++ rest /\ starts_with_space rest = false /\
    exists k, m = ids ++ ">" ++ spaces k.
Proof.
  unfold mention_tail. intros H.
  destruct (strip_prefix ids s) as [s1 |] eqn:H1; [| discriminate].
  destruct (strip_prefix ">" s1) as [s2 |] eqn:H2; [| discriminate].
  inversion H; subst m; clear H.
  apply strip_prefix_Some in H1, H2. subst s s1.
  destruct (leading_spaces_split s2) as (rest & Hs2 & Hrest).
  exists rest. split; [| split; [assumption |]].
  - rewrite append_assoc. cbn [append]. now rewrite <- Hs2.
  - clear. induction s2 as [| c s2 (k & IH)].
    + now exists 0.
    + destruct (Ascii.eqb c " ") eqn:Hc.
      * apply Ascii.eqb_eq in Hc. subst c. simpl.
        assert (Hk : exists k, leading_spaces s2 = spaces k).
        { clear. induction s2 as [| c s2 (k & IH)]; [now exists 0 |].
          destruct c as [[] [] [] [] [] [] [] []];
            try (now exists 0). simpl. rewrite IH. now exists (S k). }
        destruct Hk as (k' & ->). now exists (S k').
      * exists 0.
        destruct c as [[] [] [] [] [] [] [] []]; try reflexivity; discriminate.
Qed.

(** Whatever the mention pattern matches is a token and a run of spaces at
    the start of the content, and no space follows it. *)
Lemma mention_match_Some (uid : N) (content group0 : string) :
  mention_match uid content = Some group0 ->
  exists bang k rest,
    group0 = mention_token uid bang ++ spaces k /\
    content = group0 ++ rest /\
    starts_with_space rest = false.
Proof.
  unfold mention_match. intros H.
  destruct (strip_prefix "<@" content) as [s0 |] eqn:H0; [| discriminate].
  apply strip_prefix_Some in H0. subst content.
  destruct (match strip_prefix "!" s0 with
            | Some s1 => mention_tail (str_of_N uid) s1
            | None => None
            end) as [m |] eqn:Hb.
  - inversion H; subst group0; clear H.
    destruct (strip_prefix "!" s0) as [s1 |] eqn:H1; [| discriminate].
    apply strip_prefix_Some in H1. subst s0.
    apply mention_tail_Some in Hb. destruct Hb as (rest & -> & Hrest & k & ->).
    exists true, k, rest. unfold mention_token.
    rewrite !append_assoc. cbn [append]. now rewrite !append_assoc.
  - destruct (mention_tail (str_of_N uid) s0) as [m |] eqn:Ht; [| discriminate].
    inversion H; subst group0; clear H.
    apply mention_tail_Some in Ht. destruct Ht as (rest & -> & Hrest & k & ->).
    exists false, k, rest. unfold mention_token.
    rewrite !append_assoc. cbn [append]. now rewrite !append_assoc.
Qed.

(** ** Compiling and reading records *)

Lemma compile_compiles `{E : re.Engine} (source : string) (f : re.Flag) :
  re.compiles source f = true ->
  re.compile source f = Ok {| re.pattern := source; re.flags := f |}.
Proof.
  unfold re.compiles, re.compile.
  now destruct (re.compile_error source f).
Qed.

Lemma compile_fails `{E : re.Engine} (source : string) (f : re.Flag)
    (e : Exn) :
  re.compile_error source f = Some e -> re.compile source f = Raise e.
Proof. unfold re.compile. now intros ->. Qed.

Lemma from_dict_unfold `{E : re.Engine} (d : TriggerDict) :
  Trigger.from_dict d
  = match d_pattern d with
    | None | Some EmptyString =>
        Ok {| Trigger.name := d_name d; Trigger.pattern := None;
              Trigger.responses := d_responses d |}
    | Some source =>
        match re.compile source re.I with
        | Ok p =>
            Ok {| Trigger.name := d_name d; Trigger.pattern := Some p;
                  Trigger.responses := d_responses d |}
        | Raise e => Raise e
        end
    end.
Proof.
  unfold Trigger.from_dict, Trigger.from_raw, raw_of. cbn.
  now destruct (d_pattern d) as [[| c s] |].
Qed.

(** ** The trigger *)

(** C1.  [check] answers [None] when the trigger has no pattern or no
    response.  Otherwise it searches the content: the pattern may match at any
    position of the content, not only at its start.  Without a match the answer
    is [None]; with one it is the entry of the whole response list that the
    draw selects, and as the draw runs over its [n] equally likely values the
    answers run over the [n] entries of the list, each once. *)
Theorem check_spec `{E : re.Engine} (self : Trigger.t) (author : Author)
    (content : string) (g : Rng) :
  let n := length (Trigger.responses self) in
  (Trigger.pattern self = None \/ Trigger.responses self = [] ->
   Trigger.check self author content g = (Ok None, g)) /\
  (forall p, Trigger.pattern self = Some p -> Trigger.responses self <> [] ->
     (re.search p content = true <->
      exists pos, pos <= String.length content /\
                  re.match_at p content pos = true) /\
     (re.search p content = false ->
      Trigger.check self author content g = (Ok None, g)) /\
     (re.search p content = true ->
      (exists r,
         nth_error (Trigger.responses self) (draws g (taken g) mod n) = Some r /\
         Trigger.check self author content g =
           (Ok (Some r), {| draws := draws g; taken := S (taken g) |})) /\
      map (fun d => fst (Trigger.check self author content (rng_next d g)))
          (seq 0 n)
      = map (fun r => Ok (Some r)) (Trigger.responses self))).
Proof.
  intros n. split.
  - intros [Hp | Hr]; unfold Trigger.check; rewrite ?Hp, ?Hr.
    + reflexivity.
    + now destruct (Trigger.pattern self).
  - intros p Hp Hne. split; [apply search_iff |]. split.
    + intros Hs. unfold Trigger.check. rewrite Hp, Hs.
      now destruct (Trigger.responses self).
    + intros Hs. split.
      * unfold Trigger.check. rewrite Hp, Hs.
        destruct (Trigger.responses self) as [| r0 rs] eqn:Hrs; [easy |].
        unfold choice, randbelow. cbn [fst snd].
        exists (nth (draws g (taken g) mod n) (r0 :: rs) r0). split.
        -- apply nth_error_nth'. subst n. apply Nat.mod_upper_bound.
           simpl. lia.
        -- subst n. reflexivity.
      * unfold Trigger.check. rewrite Hp, Hs.
        destruct (Trigger.responses self) as [| r0 rs] eqn:Hrs; [easy |].
        subst n.
        rewrite <- (map_seq_nth (r0 :: rs) r0) at 2.
        rewrite map_map. apply map_ext. intros d.
        unfold choice.
        destruct (randbelow (rng_next d g) (length (r0 :: rs))) as [k g'] eqn:Hk.
        cbn [fst]. f_equal. f_equal.
        pose proof (randbelow_rng_next d (length (r0 :: rs)) g) as H.
        rewrite Hk in H. cbn [fst] in H. now subst k.
Qed.

(** C4 (amended).  A well-formed record deserializes; the trigger keeps the
    record's name and responses; a stored source is compiled with [re.I]; a
    null or empty stored pattern gives a trigger without pattern.  Serializing
    the trigger gives the record back when its pattern is null or a non-empty
    source, and the record with a null pattern when its pattern is the empty
    string. *)
Theorem from_dict_to_dict `{E : re.Engine} (d : TriggerDict) :
  well_formed d = true ->
  exists t,
    Trigger.from_dict d = Ok t /\
    Trigger.name t = d_name d /\
    Trigger.responses t = d_responses d /\
    (forall p, Trigger.pattern t = Some p ->
       re.flags p = re.I /\ d_pattern d = Some (re.pattern p)) /\
    (Trigger.pattern t = None <->
       d_pattern d = None \/ d_pattern d = Some "") /\
    (d_pattern d <> Some "" -> Trigger.to_dict t = d) /\
    (d_pattern d = Some "" -> Trigger.to_dict t = without_pattern d).
Proof.
  rewrite from_dict_unfold. unfold well_formed.
  destruct d as [nm [[| c s] |] rs]; cbn [d_pattern d_name d_responses].
  - intros _. eexists. split; [reflexivity |]. cbn.
    repeat split; try easy; auto.
  - intros Hok. rewrite (compile_compiles _ _ Hok).
    eexists. split; [reflexivity |]. cbn.
    repeat split; try easy.
    + now inversion H.
    + inversion H. now subst.
    + now intros [H | H].
  - intros _. eexists. split; [reflexivity |]. cbn.
    repeat split; try easy; auto.
Qed.

(** C4, the round trip as stated fails on a stored empty pattern: the record
    comes back with a null pattern. *)
Lemma from_dict_to_dict_empty_pattern :
  well_formed (E := Literal.engine) empty_pattern_record = true /\
  exists t,
    Trigger.from_dict (E := Literal.engine) empty_pattern_record = Ok t /\
    Trigger.to_dict t = without_pattern empty_pattern_record /\
    Trigger.to_dict t <> empty_pattern_record.
Proof.
  split; [reflexivity |]. eexists. split; [reflexivity |].
  split; [reflexivity | discriminate].
Qed.

Lemma from_dict_to_dict_witness :
  exists t,
    Trigger.from_dict (E := Literal.engine) greet_record = Ok t /\
    Trigger.name t = "greet" /\
    Trigger.responses t = d_responses greet_record /\
    (forall p, Trigger.pattern t = Some p ->
       re.flags p = re.I /\ d_pattern greet_record = Some (re.pattern p)) /\
    (Trigger.pattern t = None <->
       d_pattern greet_record = None \/ d_pattern greet_record = Some "") /\
    (d_pattern greet_record <> Some "" -> Trigger.to_dict t = greet_record) /\
    (d_pattern greet_record = Some "" ->
       Trigger.to_dict t = without_pattern greet_record).
Proof.
  apply (from_dict_to_dict (E := Literal.engine) greet_record).
  reflexivity.
Defined.

(** ** The dispatcher *)

Lemma check_None_keeps_rng `{E : re.Engine} (t : Trigger.t) (a : Author)
    (content : string) (g : Rng) :
  fst (Trigger.check t a content g) = Ok None ->
  Trigger.check t a content g = (Ok None, g).
Proof.
  unfold Trigger.check.
  destruct (Trigger.pattern t) as [p |]; [| reflexivity].
  destruct (Trigger.responses t) as [| r0 rs]; [reflexivity |].
  destruct (re.search p content); [| reflexivity].
  unfold choice. destruct (randbelow g (length (r0 :: rs))). discriminate.
Qed.

Lemma set_rng_same (w : World) : set_rng w (rng w) = w.
Proof. now destruct w. Qed.

Lemma dispatch_skips `{E : re.Engine} (a : Author) (content : string)
    (before rest : list Trigger.t) (w : World) :
  Forall (fun t' => fst (Trigger.check t' a content (rng w)) = Ok None) before ->
  Pal.dispatch a content (before ++ rest) w = Pal.dispatch a content rest w.
Proof.
  induction 1 as [| t' before Ht' _ IH]; [reflexivity |].
  cbn [app Pal.dispatch]. unfold bind at 1, Pal.check.
  rewrite (check_None_keeps_rng _ _ _ _ Ht'), set_rng_same. exact IH.
Qed.

Lemma dispatch_answers `{E : re.Engine} (a : Author) (content : string)
    (t : Trigger.t) (after : list Trigger.t) (w : World) (r : Response)
    (g' : Rng) :
  Trigger.check t a content (rng w) = (Ok (Some r), g') ->
  Pal.dispatch a content (t :: after) w = reply_outcome w a t r g'.
Proof.
  intros Hc. cbn [Pal.dispatch]. unfold bind at 1, Pal.check. rewrite Hc.
  unfold reply_outcome, Pal.get_trigger_folder.
  destruct (file r) as [f |]; [| reflexivity].
  unfold bind, open_rb. cbn [files set_rng].
  now destruct (file_exists (files w) (Trigger.name t, f)).
Qed.


(** C3.  A message whose content starts with neither form of the mention of
    the bot's user changes nothing: no reply is sent, no random number is
    drawn, and this for every registry and every regular-expression engine. *)
Theorem on_message_unaddressed `{E : re.Engine} (message : Message)
    (w : World) :
  String.prefix (mention_token (user_id w) false) (content message) = false ->
  String.prefix (mention_token (user_id w) true) (content message) = false ->
  Pal.on_message message w = (Ok tt, w).
Proof.
  intros Hplain Hbang. unfold Pal.on_message.
  destruct (bot (author message)); [reflexivity |].
  unfold bind, get.
  destruct (mention_match (user_id w) (content message)) as [group0 |] eqn:Hm;
    [| reflexivity].
  apply mention_match_Some in Hm.
  destruct Hm as (bang & k & rest & -> & Hc & _).
  rewrite Hc, append_assoc in Hplain, Hbang.
  destruct bang.
  - now rewrite prefix_app in Hbang.
  - now rewrite prefix_app in Hplain.
Qed.

(** C9 (amended).  For a user's message that starts with a mention of the
    bot's user, the text given to the rules is what follows the mention with
    its leading spaces removed: it does not start with a space. *)
Theorem on_message_strips_spaces `{E : re.Engine} (message : Message)
    (w : World) (bang : bool) (tail : string) :
  bot (author message) = false ->
  content message = mention_token (user_id w) bang ++ tail ->
  exists k remaining,
    tail = spaces k ++ remaining /\
    starts_with_space remaining = false /\
    Pal.on_message message w
    = Pal.dispatch (author message) remaining (values (triggers w)) w.
Proof.
  intros Hbot Hc.
  destruct (leading_spaces_split tail) as (remaining & Htail & Hrem).
  assert (Hk : exists k, leading_spaces tail = spaces k).
  { clear. induction tail as [| c s (k & IH)]; [now exists 0 |].
    destruct c as [[] [] [] [] [] [] [] []]; try (now exists 0).
    simpl. rewrite IH. now exists (S k). }
  destruct Hk as (k & Hk). rewrite Hk in Htail.
  exists k, remaining. split; [assumption |]. split; [assumption |].
  unfold Pal.on_message. rewrite Hbot. unfold bind at 1, get.
  rewrite Hc, Htail, mention_match_token by assumption.
  now rewrite <- append_assoc, drop_app.
Qed.



Lemma on_message_unaddressed_witness :
  Pal.on_message (E := Literal.engine) plain_message
    (world_of [default_trigger; greet] [])
  = (Ok tt, world_of [default_trigger; greet] []).
Proof.
  apply (on_message_unaddressed (E := Literal.engine) plain_message
           (world_of [default_trigger; greet] []));
    reflexivity.
Defined.

Lemma on_message_strips_spaces_witness :
  exists k remaining,
    "   hi there" = spaces k ++ remaining /\
    starts_with_space remaining = false /\
    Pal.on_message (E := Literal.engine)
      {| author := alice; content := "<@!1>   hi there"; attachments := [] |}
      (world_of [greet] [])
    = Pal.dispatch (E := Literal.engine) alice remaining
        (values (triggers (world_of [greet] []))) (world_of [greet] []).
Proof.
  apply (on_message_strips_spaces (E := Literal.engine)
           {| author := alice; content := "<@!1>   hi there";
              attachments := [] |}
           (world_of [greet] []) true "   hi there");
    reflexivity.
Defined.

(** C9, a tab after the mention is not removed: the rules are given a text
    that starts with it, as the reply of a rule that looks for the tab shows. *)
Lemma on_message_keeps_tab :
  mention_match 1 (content tab_message) = Some "<@1>" /\
  Pal.on_message (E := Literal.engine) tab_message (world_of [tabbed] [])
  = Pal.dispatch (E := Literal.engine) alice (tab ++ "hi") [tabbed]
      (world_of [tabbed] []) /\
  log (snd (Pal.on_message (E := Literal.engine) tab_message
              (world_of [tabbed] [])))
  = [Send "<@7> tab seen" None] /\
  log (snd (Pal.on_message (E := Literal.engine)
              {| author := alice; content := "<@1> hi"; attachments := [] |}
              (world_of [tabbed] [])))
  = [].
Proof. repeat split. Qed.

(** ** Dictionaries *)

Lemma dict_set_fresh {V : Type} (d : dict V) (k : string) (v : V) :
  dict_get d k = None -> dict_set d k v = (d ++ [(k, v)])%list.
Proof.
  induction d as [| [k' v'] d IH]; simpl; [reflexivity |].
  destruct (String.eqb k' k); [discriminate |].
  intros H. now rewrite IH.
Qed.

Lemma dict_set_same {V : Type} (d : dict V) (k : string) (v : V) :
  dict_get d k = Some v -> dict_set d k v = d.
Proof.
  induction d as [| [k' v'] d IH]; simpl; [discriminate |].
  destruct (String.eqb k' k).
  - now intros [= ->].
  - intros H. now rewrite IH.
Qed.

Lemma dict_set_set {V : Type} (d : dict V) (k : string) (v v' : V) :
  dict_set (dict_set d k v) k v' = dict_set d k v'.
Proof.
  induction d as [| [k0 v0] d IH]; simpl.
  - now rewrite String.eqb_refl.
  - destruct (String.eqb k0 k) eqn:Hk; simpl; rewrite Hk; [reflexivity |].
    now rewrite IH.
Qed.

Lemma dict_get_set {V : Type} (d : dict V) (k k' : string) (v : V) :
  dict_get (dict_set d k v) k'
  = if String.eqb k k' then Some v else dict_get d k'.
Proof.
  induction d as [| [k0 v0] d IH]; simpl.
  - reflexivity.
  - destruct (String.eqb k0 k) eqn:Hk; simpl.
    + apply String.eqb_eq in Hk. subst k0.
      now destruct (String.eqb k k').
    + destruct (String.eqb k0 k') eqn:Hk'; [| exact IH].
      apply String.eqb_eq in Hk'. subst k0.
      destruct (String.eqb k k') eqn:Hkk; [| reflexivity].
      apply String.eqb_eq in Hkk. subst k'.
      now rewrite String.eqb_refl in Hk.
Qed.


(** ** Indexing *)

Lemma getitem_in_range {A : Type} (l : list A) (i : Z) :
  (0 <= i < Z.of_nat (length l))%Z ->
  exists x, getitem l i = Ok x /\ nth_error l (Z.to_nat i) = Some x.
Proof.
  intros Hi. unfold getitem.
  destruct (i <? 0)%Z eqn:Hneg; [apply Z.ltb_lt in Hneg; lia |].
  rewrite Hneg. cbn [orb].
  destruct (Z.of_nat (length l) <=? i)%Z eqn:Hle;
    [apply Z.leb_le in Hle; lia |].
  destruct (nth_error l (Z.to_nat i)) as [x |] eqn:Hn.
  - now exists x.
  - apply nth_error_None in Hn. lia.
Qed.

Lemma delitem_in_range {A : Type} (l : list A) (i : Z) :
  (0 <= i < Z.of_nat (length l))%Z ->
  delitem l i = Ok (remove_nth (Z.to_nat i) l).
Proof.
  intros Hi. unfold delitem.
  destruct (i <? 0)%Z eqn:Hneg; [apply Z.ltb_lt in Hneg; lia |].
  rewrite Hneg. cbn [orb].
  destruct (Z.of_nat (length l) <=? i)%Z eqn:Hle;
    [apply Z.leb_le in Hle; lia | reflexivity].
Qed.

Lemma getitem_empty {A : Type} (i : Z) : getitem (@nil A) i = Raise IndexError.
Proof.
  unfold getitem. cbn [length Z.of_nat].
  destruct (i <? 0)%Z eqn:Hneg.
  - replace ((i + 0 <? 0)%Z) with true
      by (symmetry; apply Z.ltb_lt; apply Z.ltb_lt in Hneg; lia).
    reflexivity.
  - rewrite Hneg. cbn [orb].
    replace ((0 <=? i)%Z) with true
      by (symmetry; apply Z.leb_le; apply Z.ltb_ge in Hneg; lia).
    reflexivity.
Qed.

Lemma remove_nth_map {A B : Type} (f : A -> B) (k : nat) (l : list A) :
  remove_nth k (map f l) = map f (remove_nth k l).
Proof.
  revert k. induction l as [| x l IH]; intros [| k]; simpl; try reflexivity.
  now rewrite IH.
Qed.

Lemma length_remove_nth {A : Type} (k : nat) (l : list A) :
  k < length l -> S (length (remove_nth k l)) = length l.
Proof.
  revert k. induction l as [| x l IH]; intros [| k] Hk; simpl in *; try lia.
  rewrite IH; lia.
Qed.

Lemma pymod_pos (a n : Z) : (0 < n)%Z -> pymod a n = Ok (a mod n)%Z.
Proof.
  intros Hn. unfold pymod.
  destruct (n =? 0)%Z eqn:H0; [apply Z.eqb_eq in H0; lia | reflexivity].
Qed.

(** ** The response browser *)

Lemma set_files_same (w : World) : set_files w (files w) = w.
Proof. now destruct w. Qed.

Lemma with_responses_same (t : Trigger.t) :
  with_responses t (Trigger.responses t) = t.
Proof. now destruct t. Qed.

(** Removing a response's file never fails, and touches the files only. *)
Lemma forget_file (p : path) (w : World) :
  exists fs,
    try_except (os_remove p) is_FileNotFoundError (ret tt) w
    = (Ok tt, set_files w fs).
Proof.
  unfold try_except, os_remove, ret.
  destruct (dict_get (files w) (fst p)) as [names |];
    [destruct (existsb (String.eqb (snd p)) names) |];
    cbn [is_FileNotFoundError];
    solve [eexists; reflexivity
          | exists (files w); now rewrite set_files_same].
Qed.

(** A session on a registered trigger that has a response never fails.  It
    first shows the page it is at, leaves the trigger with the responses
    [browse] computes, and apart from that only removes files and writes to
    the message: the stored configuration is not written. *)
Lemma remove_loop_browse (events : list Reaction) :
  forall (t : Trigger.t) (page : Z) (w : World),
    Trigger.responses t <> [] ->
    (0 <= page < Z.of_nat (length (Trigger.responses t)))%Z ->
    dict_get (triggers w) (Trigger.name t) = Some t ->
    exists w',
      Pal.remove_loop t (Trigger.name t) events
        (map Pal.page_of (Trigger.responses t)) page w = (Ok tt, w') /\
      triggers w'
      = dict_set (triggers w) (Trigger.name t)
          (with_responses t
             (browse (map emoji events) (Trigger.responses t) page)) /\
      config w' = config w /\ rng w' = rng w /\ user_id w' = user_id w /\
      exists shown evs,
        nth_error (map Pal.page_of (Trigger.responses t)) (Z.to_nat page)
        = Some shown /\
        log w' = (log w ++ Edit shown :: evs)%list /\
        forallb quiet evs = true.
Proof.
  induction events as [| reaction events IH]; intros t page w Hne Hpage Hreg.
  - destruct (getitem_in_range (map Pal.page_of (Trigger.responses t)) page)
      as (shown & Hshown & Hnth); [now rewrite length_map |].
    cbn [Pal.remove_loop]. unfold bind, lift, emit, ret. rewrite Hshown.
    eexists. split; [reflexivity |]. cbn.
    rewrite with_responses_same, dict_set_same by assumption.
    repeat split. now exists shown, [].
  - destruct (getitem_in_range (map Pal.page_of (Trigger.responses t)) page)
      as (shown & Hshown & Hnth); [now rewrite length_map |].
    set (n := Z.of_nat (length (Trigger.responses t))) in *.
    assert (Hn : (0 < n)%Z) by lia.
    assert (Hkeep : forall page' control,
              (0 <= page' < n)%Z ->
              browse (control :: map emoji events) (Trigger.responses t) page
              = browse (map emoji events) (Trigger.responses t) page' ->
              emoji reaction = control ->
              forall w1, w1 = set_log w (log w ++ [Edit shown])%list ->
              exists w',
                Pal.remove_loop t (Trigger.name t) events
                  (map Pal.page_of (Trigger.responses t)) page'
                  (set_log w1 (log w1 ++
                     [RemoveReaction (emoji reaction) (user reaction)])%list)
                = (Ok tt, w') /\
                triggers w'
                = dict_set (triggers w) (Trigger.name t)
                    (with_responses t
                       (browse (control :: map emoji events)
                               (Trigger.responses t) page)) /\
                config w' = config w /\ rng w' = rng w /\
                user_id w' = user_id w /\
                exists shown0 evs,
                  nth_error (map Pal.page_of (Trigger.responses t))
                            (Z.to_nat page) = Some shown0 /\
                  log w' = (log w ++ Edit shown0 :: evs)%list /\
                  forallb quiet evs = true).
    { intros page' control Hpage' Hb Hc w1 ->.
      destruct (IH t page'
                  (set_log (set_log w (log w ++ [Edit shown])%list)
                     ((log (set_log w (log w ++ [Edit shown])%list) ++
                       [RemoveReaction (emoji reaction) (user reaction)])%list))
                  Hne Hpage' Hreg)
        as (w' & Hrun & Htr & Hcfg & Hrng & Huid & shown' & evs & _ & Hlog & Hq).
      exists w'. split; [exact Hrun |]. rewrite Hb.
      repeat split; try assumption.
      exists shown,
        (RemoveReaction (emoji reaction) (user reaction) :: Edit shown' :: evs).
      split; [exact Hnth |]. split; [| exact Hq].
      rewrite Hlog. cbn [log set_log]. now rewrite <- !app_assoc. }
    cbn [Pal.remove_loop map]. unfold bind at 1, lift at 1. rewrite Hshown.
    unfold bind at 1, emit at 1.
    destruct (emoji reaction) as [| | | | other] eqn:Hemoji.
    + (* previous page *)
      unfold bind at 1, lift at 1.
      rewrite length_map, pymod_pos by assumption.
      unfold bind at 1, emit at 1. fold n.
      apply (Hkeep ((page - 1) mod n)%Z Previous);
        [apply Z.mod_pos_bound; lia | reflexivity | reflexivity | reflexivity].
    + (* close *)
      unfold ret. eexists. split; [reflexivity |]. cbn.
      rewrite with_responses_same, dict_set_same by assumption.
      repeat split. now exists shown, [].
    + (* delete the response shown *)
      destruct (getitem_in_range (Trigger.responses t) page Hpage)
        as (r & Hr & _).
      unfold bind at 1, lift at 1.
      rewrite delitem_in_range by (now rewrite length_map).
      unfold bind at 1, lift at 1. rewrite Hr. unfold bind at 1.
      set (w1 := set_log w (log w ++ [Edit shown])%list).
      assert (Hfile : exists fs,
                 match file r with
                 | Some f =>
                     try_except (os_remove (Trigger.name t, f))
                                is_FileNotFoundError (ret tt)
                 | None => ret tt
                 end w1 = (Ok tt, set_files w1 fs)).
      { destruct (file r) as [f |]; [apply forget_file |].
        exists (files w1). unfold ret. now rewrite set_files_same. }
      destruct Hfile as (fs & ->).
      unfold bind at 1, lift at 1. rewrite delitem_in_range by assumption.
      unfold bind at 1, Pal.mutate at 1.
      cbn [Trigger.name triggers set_files set_log w1]. rewrite Hreg.
      rewrite remove_nth_map. cbn [browse].
      destruct (remove_nth (Z.to_nat page) (Trigger.responses t))
        as [| r1 rest] eqn:Hrest.
      * cbn [map]. unfold emit. eexists. split; [reflexivity |]. cbn.
        repeat split.
        exists shown, [Send Pal.msg_no_more None].
        split; [exact Hnth |]. now rewrite <- app_assoc.
      * set (t' := {| Trigger.name := Trigger.name t;
                      Trigger.pattern := Trigger.pattern t;
                      Trigger.responses := r1 :: rest |}).
        set (n' := Z.of_nat (length (r1 :: rest))).
        assert (Hn' : (0 < n')%Z) by (subst n'; cbn [length]; lia).
        cbn [map]. unfold bind at 1, lift at 1.
        replace (Z.of_nat (length (Pal.page_of r1 :: map Pal.page_of rest)))
          with n' by (subst n'; cbn [length]; now rewrite length_map).
        rewrite pymod_pos by assumption.
        unfold bind at 1, emit at 1.
        match goal with
        | |- exists w', Pal.remove_loop _ _ _ _ _ ?w5 = _ /\ _ =>
            destruct (IH t' (page mod n')%Z w5) as
              (w' & Hrun & Htr & Hcfg & Hrng & Huid & shown' & evs & _ & Hlog
               & Hq)
        end.
        -- discriminate.
        -- apply Z.mod_pos_bound. assumption.
        -- cbn [triggers set_triggers set_log set_files t' Trigger.name].
           rewrite dict_get_set. now rewrite String.eqb_refl.
        -- exists w'. split; [exact Hrun |].
           cbn [triggers set_triggers set_log set_files config rng user_id log
                t' Trigger.name Trigger.responses] in Htr, Hcfg, Hrng, Huid, Hlog.
           rewrite dict_set_set in Htr.
           repeat split; try assumption.
           exists shown,
             (RemoveReaction Bin (user reaction) :: Edit shown' :: evs).
           split; [exact Hnth |]. split; [| exact Hq].
           rewrite Hlog. cbn [w1 log set_log]. now rewrite <- !app_assoc.
    + (* next page *)
      unfold bind at 1, lift at 1.
      rewrite length_map, pymod_pos by assumption.
      unfold bind at 1, emit at 1. fold n.
      apply (Hkeep ((page + 1) mod n)%Z Following);
        [apply Z.mod_pos_bound; lia | reflexivity | reflexivity | reflexivity].
    + (* an emoji that is no control *)
      unfold bind at 1, lift at 1.
      rewrite length_map, pymod_pos by assumption.
      unfold bind at 1, emit at 1. fold n.
      apply (Hkeep (page mod n)%Z (OtherEmoji other));
        [apply Z.mod_pos_bound; lia | reflexivity | reflexivity | reflexivity].
Qed.

Lemma remove_unfold (ctx : Context) (t : Trigger.t)
    (reactions : list Reaction) (w : World) :
  Pal.remove ctx t reactions w
  = bind (Pal.remove_loop t (Trigger.name t)
            (filter (Pal.wait_check ctx) reactions)
            (map Pal.page_of (Trigger.responses t)) 0%Z)
         (fun _ => emit ClearReactions)
         (set_log w (log w ++ opening)%list).
Proof.
  unfold Pal.remove, Pal.get_trigger_folder, opening.
  cbn [Pal.add_reactions Pal.emojis].
  unfold bind, emit, ret.
  cbn [log set_log triggers user_id config files rng].
  now rewrite <- !app_assoc.
Qed.

(** The whole command on a registered trigger with a response: it ends
    normally, shows the first response first, clears the controls last, and
    never writes the stored configuration. *)
Lemma remove_browse (ctx : Context) (t : Trigger.t)
    (reactions : list Reaction) (w : World) (r : Response)
    (rs : list Response) :
  Trigger.responses t = r :: rs ->
  dict_get (triggers w) (Trigger.name t) = Some t ->
  exists w' evs,
    Pal.remove ctx t reactions w = (Ok tt, w') /\
    triggers w'
    = dict_set (triggers w) (Trigger.name t)
        (with_responses t
           (browse (map emoji (filter (Pal.wait_check ctx) reactions))
                   (Trigger.responses t) 0)) /\
    config w' = config w /\ rng w' = rng w /\ user_id w' = user_id w /\
    log w'
    = (log w ++ opening ++ Edit (Pal.page_of r) :: evs ++ [ClearReactions])%list
    /\ forallb quiet evs = true.
Proof.
  intros Hrs Hreg. rewrite remove_unfold.
  destruct (remove_loop_browse
              (filter (Pal.wait_check ctx) reactions) t 0%Z
              (set_log w (log w ++ opening)%list))
    as (w1 & Hrun & Htr & Hcfg & Hrng & Huid & shown & evs & Hnth & Hlog
        & Hq).
  - now rewrite Hrs.
  - rewrite Hrs. cbn [length]. lia.
  - exact Hreg.
  - rewrite Hrs in Hnth. cbn in Hnth. injection Hnth as <-.
    unfold bind. rewrite Hrun. unfold emit.
    eexists. exists evs. split; [reflexivity |].
    cbn [triggers config rng user_id log set_log] in *.
    repeat split; try assumption.
    rewrite Hlog. now rewrite <- !app_assoc.
Qed.




(** ** The commands *)


(** C7 (amended).  When compiling the source fails, [pattern] changes
    nothing: the registry, with the trigger's pattern and responses, the
    stored configuration and the files stay as they were.  On the trigger
    named ["default"] it sends the refusal to change its pattern, whatever the
    source.  On any other trigger it sends ["Invalid pattern!"] when the
    failure is [re.error], the one exception it handles; any other exception
    leaves the command as it was raised, and nothing is sent. *)
Theorem pattern_invalid `{E : re.Engine} (ctx : Context) (t : Trigger.t)
    (source : string) (w : World) (e : Exn) :
  re.compile_error source re.I = Some e ->
  Pal.pattern ctx t source w
  = if String.eqb (Trigger.name t) "default" then
      (Ok tt, set_log w (log w ++ [Send Pal.msg_protected_pattern None])%list)
    else if is_ReError e then
      (Ok tt, set_log w (log w ++ [Send Pal.msg_invalid_pattern None])%list)
    else (Raise e, w).
Proof.
  intros Hbad. unfold Pal.pattern.
  destruct (String.eqb (Trigger.name t) "default"); [reflexivity |].
  unfold bind, try_except, lift. rewrite (compile_fails _ _ _ Hbad).
  now destruct (is_ReError e).
Qed.

(** C8.  [create] on a registered name only sends its refusal: the registry
    and the stored configuration stay as they were.  On a new name it puts a
    trigger of that name, without pattern and without responses, after all the
    others, so that it is the last to be asked and answers nothing; it then
    writes every trigger of the registry, in order, with its name, the source
    of its pattern or null, and its responses, and confirms. *)
Theorem create_spec `{E : re.Engine} (ctx : Context) (trigger_name : string)
    (w : World) :
  let created :=
    {| Trigger.name := trigger_name; Trigger.pattern := None;
       Trigger.responses := [] |} in
  let written (t : Trigger.t) :=
    {| d_name := Trigger.name t;
       d_pattern := match Trigger.pattern t with
                    | Some p => Some (re.pattern p)
                    | None => None
                    end;
       d_responses := Trigger.responses t |} in
  Pal.create ctx trigger_name w
  = match dict_get (triggers w) trigger_name with
    | Some _ =>
        (Ok tt, set_log w (log w ++ [Send Pal.msg_already_exists None])%list)
    | None =>
        let stored :=
          (map written (values (triggers w)) ++
           [{| d_name := trigger_name; d_pattern := None;
               d_responses := [] |}])%list in
        (Ok tt,
         {| triggers := (triggers w ++ [(trigger_name, created)])%list;
            user_id := user_id w;
            config := Some stored;
            files := files w;
            rng := rng w;
            log := (log w ++ [ConfigSet stored;
                              Send (Pal.msg_created trigger_name) None])%list |})
    end /\
  forall a content g,
    Trigger.check created a content g = (Ok None, g).
Proof.
  intros created written. split; [| reflexivity].
  unfold Pal.create, bind, Pal.get_trigger.
  destruct (dict_get (triggers w) trigger_name) as [t |] eqn:Hget.
  - reflexivity.
  - unfold Pal.assign, Pal.save, emit. cbn.
    rewrite (dict_set_fresh _ _ _ Hget). unfold values.
    rewrite !map_app. cbn [map snd Trigger.to_dict Trigger.init
                           Trigger.name Trigger.pattern Trigger.responses].
    now rewrite <- app_assoc.
Qed.

Lemma create_spec_witness :
  Pal.create alice_ctx "greet" (world_of [default_trigger; show] [])
  = (Ok tt,
     {| triggers :=
          registry_of
            [default_trigger; show;
             {| Trigger.name := "greet"; Trigger.pattern := None;
                Trigger.responses := [] |}];
        user_id := 1;
        config :=
          Some [{| d_name := "default"; d_pattern := Some "bye";
                   d_responses := [] |};
                {| d_name := "show"; d_pattern := Some "HI";
                   d_responses := [picture] |};
                {| d_name := "greet"; d_pattern := None;
                   d_responses := [] |}];
        files := [];
        rng := zeros;
        log :=
          [ConfigSet
             [{| d_name := "default"; d_pattern := Some "bye";
                 d_responses := [] |};
              {| d_name := "show"; d_pattern := Some "HI";
                 d_responses := [picture] |};
              {| d_name := "greet"; d_pattern := None;
                 d_responses := [] |}];
           Send "Trigger `greet` has been created!" None] |}).
Proof.
  exact (proj1 (create_spec (E := Literal.engine) alice_ctx "greet"
                  (world_of [default_trigger; show] []))).
Defined.

(** C10.  [remove] on a trigger without responses puts up its message and
    the controls and then fails with [IndexError]: nothing is shown, nothing is
    said about the empty list, the controls stay.  With at least one response
    index 0 is in range, and the first response is what the browser shows
    first. *)
Theorem remove_first_page (ctx : Context) (t : Trigger.t)
    (reactions : list Reaction) (w : World) :
  match Trigger.responses t with
  | [] =>
      Pal.remove ctx t reactions w
      = (Raise IndexError, set_log w (log w ++ opening)%list)
  | r :: rs =>
      getitem (map Pal.page_of (Trigger.responses t)) 0 = Ok (Pal.page_of r) /\
      (dict_get (triggers w) (Trigger.name t) = Some t ->
       exists w' evs,
         Pal.remove ctx t reactions w = (Ok tt, w') /\
         log w' = (log w ++ opening ++ Edit (Pal.page_of r) :: evs)%list)
  end.
Proof.
  destruct (Trigger.responses t) as [| r rs] eqn:Hrs.
  - rewrite remove_unfold, Hrs. cbn [map]. unfold bind.
    destruct (filter (Pal.wait_check ctx) reactions);
      cbn [Pal.remove_loop]; unfold bind, lift;
      now rewrite getitem_empty.
  - split; [reflexivity |]. intros Hreg.
    destruct (remove_browse ctx t reactions w r rs Hrs Hreg)
      as (w' & evs & Hrun & _ & _ & _ & _ & Hlog & _).
    exists w', (evs ++ [ClearReactions])%list. split; [exact Hrun |].
    exact Hlog.
Qed.


Lemma pattern_invalid_witness :
  Pal.pattern (E := Literal.engine) alice_ctx greet "(hi"
    (world_of [default_trigger; greet] [])
  = (Ok tt,
     set_log (world_of [default_trigger; greet] [])
       (log (world_of [default_trigger; greet] []) ++
        [Send Pal.msg_invalid_pattern None])%list).
Proof.
  apply (pattern_invalid (E := Literal.engine) alice_ctx greet "(hi"
           (world_of [default_trigger; greet] []) ReError).
  reflexivity.
Defined.

Lemma pattern_overflow_example :
  re.compile_error (Engine := Literal.engine) "a{4294967296}" re.I
  = Some OverflowError /\
  Pal.pattern (E := Literal.engine) alice_ctx greet "a{4294967296}"
    (world_of [default_trigger; greet] [])
  = (Raise OverflowError, world_of [default_trigger; greet] []).
Proof. split; reflexivity. Qed.

(** C7, on the trigger named ["default"] a source that does not compile is
    not reported as invalid: the refusal to change the pattern comes first. *)
Lemma pattern_invalid_on_default :
  re.compile_error (Engine := Literal.engine) "(hi" re.I = Some ReError /\
  Pal.pattern (E := Literal.engine) alice_ctx default_trigger "(hi"
    (world_of [default_trigger; greet] [])
  = (Ok tt,
     set_log (world_of [default_trigger; greet] [])
       [Send Pal.msg_protected_pattern None]) /\
  String.eqb Pal.msg_protected_pattern Pal.msg_invalid_pattern = false.
Proof. repeat split. Qed.

(** C5, at a registry whose trigger ["greet"] has one response: deleting it in
    the browser ends the session and clears the controls, the trigger is left
    without responses, and the stored configuration is never written.  It
    still holds the response, so the next [initialize] brings it back. *)
Theorem remove_is_not_saved :
  Pal.remove alice_ctx greet [bin_by alice]
    (world_of [default_trigger; greet] [])
  = (Ok tt,
     {| triggers := registry_of [default_trigger; with_responses greet []];
        user_id := 1;
        config := Some (map Trigger.to_dict [default_trigger; greet]);
        files := [];
        rng := zeros;
        log := (opening ++
                [Edit "hello!"; Send Pal.msg_no_more None; ClearReactions])%list
     |}) /\
  Pal.initialize (E := Literal.engine)
    (snd (Pal.remove alice_ctx greet [bin_by alice]
            (world_of [default_trigger; greet] [])))
  = (Ok tt,
     {| triggers := registry_of [default_trigger; greet];
        user_id := 1;
        config := Some (map Trigger.to_dict [default_trigger; greet]);
        files := [];
        rng := zeros;
        log := (opening ++
                [Edit "hello!"; Send Pal.msg_no_more None; ClearReactions])%list
     |}).
Proof. split; reflexivity. Qed.

Lemma check_examples :
  Trigger.check (E := Literal.engine) greet alice "oh HI there" zeros
  = (Ok (Some hello), {| draws := draws zeros; taken := 1 |}) /\
  Trigger.check (E := Literal.engine) greet alice "bye" zeros = (Ok None, zeros) /\
  Trigger.check (E := Literal.engine) default_trigger alice "bye" zeros
  = (Ok None, zeros).
Proof. repeat split. Qed.

Lemma check_spec_witness :
  map (fun d => fst (Trigger.check (E := Literal.engine) default_busy alice
                       "good BYE" (rng_next d zeros)))
      (seq 0 2)
  = [Ok (Some hello); Ok (Some picture)].
Proof.
  destruct (check_spec (E := Literal.engine) default_busy alice "good BYE"
              zeros) as [_ Hmatch].
  destruct (Hmatch (compiled "bye") eq_refl ltac:(discriminate))
    as (_ & _ & Hfound).
  exact (proj2 (Hfound eq_refl)).
Defined.

(** ** Loading and saving the registry *)

Lemma dict_get_None_iff {V : Type} (d : dict V) (k : string) :
  dict_get d k = None <-> ~ In k (keys d).
Proof.
  unfold keys. induction d as [| [k' v] d IH]; simpl; [tauto |].
  destruct (String.eqb k' k) eqn:Hk.
  - apply String.eqb_eq in Hk. split; [discriminate | tauto].
  - apply String.eqb_neq in Hk. tauto.
Qed.

Lemma keys_dict_set_cases {V : Type} (d : dict V) (k : string) (v : V) :
  keys (dict_set d k v)
  = match dict_get d k with
    | Some _ => keys d
    | None => (keys d ++ [k])%list
    end.
Proof.
  unfold keys. induction d as [| [k' v'] d IH]; simpl; [reflexivity |].
  destruct (String.eqb k' k) eqn:Hk; simpl; [reflexivity |].
  rewrite IH. now destruct (dict_get d k).
Qed.

Lemma NoDup_keys_dict_set {V : Type} (d : dict V) (k : string) (v : V) :
  NoDup (keys d) -> NoDup (keys (dict_set d k v)).
Proof.
  intros Hd. rewrite keys_dict_set_cases.
  destruct (dict_get d k) eqn:Hget; [assumption |].
  apply dict_get_None_iff in Hget.
  apply NoDup_app; [assumption | repeat constructor; easy |].
  intros x Hx [<- | []]. contradiction.
Qed.

Lemma Forall_dict_set {V : Type} (P : string * V -> Prop) (d : dict V)
    (k : string) (v : V) :
  (forall k', P (k', v)) -> Forall P d -> Forall P (dict_set d k v).
Proof.
  intros Hv. induction 1 as [| [k' v'] d Hx Hd IH]; simpl.
  - repeat constructor. apply Hv.
  - destruct (String.eqb k' k); constructor; auto.
Qed.

Lemma registry_ok_set (d : dict Trigger.t) (t : Trigger.t) :
  registry_ok d -> registry_ok (dict_set d (Trigger.name t) t).
Proof.
  intros [Hnd Hnames]. split; [now apply NoDup_keys_dict_set |].
  induction Hnames as [| [k' t'] d Hx Hd IH]; simpl.
  - repeat constructor.
  - inversion Hnd; subst.
    destruct (String.eqb k' (Trigger.name t)) eqn:Hk; constructor; auto.
    apply String.eqb_eq in Hk. exact Hk.
Qed.

Lemma incl_keys_dict_del {V : Type} (d : dict V) (k : string) :
  incl (keys (dict_del d k)) (keys d).
Proof.
  unfold keys. induction d as [| [k' v'] d IH]; simpl; [easy |].
  destruct (String.eqb k' k); simpl.
  - now apply incl_tl.
  - apply incl_cons; [now left | now apply incl_tl].
Qed.

Lemma NoDup_keys_dict_del {V : Type} (d : dict V) (k : string) :
  NoDup (keys d) -> NoDup (keys (dict_del d k)).
Proof.
  induction d as [| [k' v'] d IH]; simpl; [easy |].
  intros Hnd. inversion Hnd as [| x l Hnotin Hnd']; subst.
  destruct (String.eqb k' k); [assumption |].
  simpl. constructor; [| now apply IH].
  intros Hin. apply Hnotin. now apply (incl_keys_dict_del d k).
Qed.

Lemma registry_ok_del (d : dict Trigger.t) (k : string) :
  registry_ok d -> registry_ok (dict_del d k).
Proof.
  intros [Hnd Hnames]. split; [now apply NoDup_keys_dict_del |].
  clear Hnd. induction Hnames as [| [k' t'] d Hx Hd IH]; simpl.
  - constructor.
  - destruct (String.eqb k' k); [assumption | now constructor].
Qed.



Lemma from_dict_of_to_dict `{E : re.Engine} (t : Trigger.t) :
  reloadable t = true -> Trigger.from_dict (Trigger.to_dict t) = Ok t.
Proof.
  rewrite from_dict_unfold. unfold reloadable, Trigger.to_dict.
  destruct t as [nm [[source [|]] |] rs]; cbn; try discriminate;
    [| reflexivity].
  destruct source as [| c source]; cbn.
  - now rewrite andb_false_r.
  - rewrite andb_true_r. intros Hok. now rewrite (compile_compiles _ _ Hok).
Qed.

Lemma load_app `{E : re.Engine} (d : dict Trigger.t) :
  forall acc,
    NoDup (keys (acc ++ d)%list) ->
    Forall (fun kt => fst kt = Trigger.name (snd kt)) d ->
    Forall (fun t => reloadable t = true) (values d) ->
    Pal.load (map raw_of (map Trigger.to_dict (values d))) acc
    = Ok (acc ++ d)%list.
Proof.
  induction d as [| [k t] d IH]; intros acc Hnd Hnames Hre.
  - cbn. now rewrite app_nil_r.
  - inversion Hnames as [| x l Hk Hnames']; subst. cbn in Hk. subst k.
    inversion Hre as [| x l Ht Hre']; subst.
    cbn [values map snd Pal.load].
    change (Trigger.from_raw (raw_of (Trigger.to_dict t)))
      with (Trigger.from_dict (Trigger.to_dict t)).
    rewrite (from_dict_of_to_dict t Ht).
    cbn [Trigger.to_dict d_name raw_of raw_name].
    assert (Hfresh : dict_get acc (Trigger.name t) = None).
    { apply dict_get_None_iff. intros Hin.
      unfold keys in Hnd, Hin. rewrite map_app in Hnd. cbn in Hnd.
      apply NoDup_remove_2 in Hnd. apply Hnd.
      apply in_or_app. now left. }
    rewrite (dict_set_fresh _ _ _ Hfresh).
    fold (values d).
    rewrite (IH (acc ++ [(Trigger.name t, t)])%list).
    + now rewrite <- app_assoc.
    + now rewrite <- app_assoc.
    + assumption.
    + assumption.
Qed.

(** X1.  Saving and loading again gives the registry back: after [save],
    [initialize] succeeds and changes nothing, provided the registry has no
    key twice, holds every trigger under its name, and every pattern in it was
    compiled by the cog from a non-empty source. *)
Theorem save_then_initialize `{E : re.Engine} (w : World) :
  registry_ok (triggers w) ->
  Forall (fun t => reloadable t = true) (values (triggers w)) ->
  Pal.initialize (snd (Pal.save w)) = (Ok tt, snd (Pal.save w)).
Proof.
  intros [Hnd Hnames] Hre.
  unfold Pal.initialize, Pal.save, Pal.stored_triggers.
  cbn [snd config set_config set_log].
  rewrite (load_app (triggers w) [] Hnd Hnames Hre). cbn [app].
  reflexivity.
Qed.

Lemma save_then_initialize_witness :
  Pal.initialize (E := Literal.engine)
    (snd (Pal.save (world_of [default_trigger; greet; show] [])))
  = (Ok tt, snd (Pal.save (world_of [default_trigger; greet; show] []))).
Proof.
  apply (save_then_initialize (E := Literal.engine)
           (world_of [default_trigger; greet; show] [])).
  - split; [| repeat constructor].
    repeat constructor; cbn; intuition discriminate.
  - repeat constructor.
Defined.

Lemma from_dict_readable `{E : re.Engine} (d : TriggerDict) :
  read_error d = None ->
  exists t, Trigger.from_dict d = Ok t /\ Trigger.name t = d_name d.
Proof.
  rewrite from_dict_unfold. unfold read_error, re.compile.
  destruct (d_pattern d) as [[| c s] |]; intros H; rewrite ?H;
    eexists; split; reflexivity.
Qed.

Lemma from_dict_unreadable `{E : re.Engine} (d : TriggerDict) (e : Exn) :
  read_error d = Some e -> Trigger.from_dict d = Raise e.
Proof.
  rewrite from_dict_unfold. unfold read_error, re.compile.
  destruct (d_pattern d) as [[| c s] |]; try discriminate.
  now intros ->.
Qed.

Lemma in_keys_dict_set {V : Type} (d : dict V) (k k' : string) (v : V) :
  In k' (keys (dict_set d k v)) <-> In k' (keys d) \/ k' = k.
Proof.
  rewrite keys_dict_set_cases. destruct (dict_get d k) eqn:Hget.
  - split; [tauto |]. intros [H | ->]; [assumption |].
    destruct (in_dec string_dec k (keys d)) as [Hin | Hout]; [assumption |].
    apply dict_get_None_iff in Hout. congruence.
  - rewrite in_app_iff. cbn. intuition.
Qed.

Lemma load_readable `{E : re.Engine} (l : list TriggerDict) :
  forall acc,
    registry_ok acc ->
    first_error l = None ->
    exists d,
      Pal.load (map raw_of l) acc = Ok d /\ registry_ok d /\
      forall k, In k (keys d) <-> In k (keys acc) \/ In k (map d_name l).
Proof.
  induction l as [| r l IH]; intros acc Hacc Hwf.
  - exists acc. cbn. intuition.
  - cbn [first_error] in Hwf.
    destruct (read_error r) as [e |] eqn:Hr; [discriminate |].
    destruct (from_dict_readable r Hr) as (t & Ht & Hname).
    cbn [Pal.load map].
    change (Trigger.from_raw (raw_of r)) with (Trigger.from_dict r).
    rewrite Ht. change (raw_name (raw_of r)) with (d_name r).
    rewrite <- Hname.
    destruct (IH (dict_set acc (Trigger.name t) t)
                 (registry_ok_set acc t Hacc) Hwf) as (d & Hd & Hok & Hkeys).
    exists d. split; [exact Hd |]. split; [exact Hok |].
    intros k. rewrite Hkeys, in_keys_dict_set. cbn [map In].
    rewrite Hname. intuition.
Qed.

Lemma load_unreadable `{E : re.Engine} (l : list TriggerDict) (e : Exn) :
  forall acc,
    first_error l = Some e -> Pal.load (map raw_of l) acc = Raise e.
Proof.
  induction l as [| r l IH]; intros acc Hwf; [discriminate |].
  cbn [first_error] in Hwf. cbn [Pal.load map].
  change (Trigger.from_raw (raw_of r)) with (Trigger.from_dict r).
  destruct (read_error r) as [e' |] eqn:Hr.
  - injection Hwf as ->. now rewrite (from_dict_unreadable r e Hr).
  - destruct (from_dict_readable r Hr) as (t & -> & _).
    apply IH. exact Hwf.
Qed.

(** X2.  [initialize] reads the stored records in order.  When each can be
    read it fills the registry with one trigger per stored name, no key twice
    and every trigger under its name.  Otherwise it raises what compiling the
    pattern of the first record that cannot be read raises ([re.error], or
    another exception of [re.compile]) and leaves the cog as it was.  While
    nothing was ever stored it reads the registered default, whose pattern is
    already compiled, and raises [ValueError]. *)
Theorem initialize_outcome `{E : re.Engine} (w : World) :
  match config w with
  | None => Pal.initialize w = (Raise ValueError, w)
  | Some stored =>
      match first_error stored with
      | None =>
          exists d,
            Pal.initialize w = (Ok tt, set_triggers w d) /\ registry_ok d /\
            forall k, In k (keys d) <-> In k (map d_name stored)
      | Some e => Pal.initialize w = (Raise e, w)
      end
  end.
Proof.
  unfold Pal.initialize, Pal.stored_triggers.
  destruct (config w) as [stored |]; [| reflexivity].
  destruct (first_error stored) as [e |] eqn:Hwf.
  - now rewrite (load_unreadable stored e [] Hwf).
  - destruct (load_readable stored []) as (d & Hd & Hok & Hkeys);
      [split; constructor | exact Hwf |].
    exists d. rewrite Hd. split; [reflexivity |]. split; [exact Hok |].
    intros k. rewrite Hkeys. cbn. tauto.
Qed.

Lemma initialize_examples :
  Pal.initialize (E := Literal.engine)
    {| triggers := []; user_id := 1; config := None; files := [];
       rng := zeros; log := [] |}
  = (Raise ValueError,
     {| triggers := []; user_id := 1; config := None; files := [];
        rng := zeros; log := [] |}) /\
  fst (Pal.initialize (E := Literal.engine)
         {| triggers := []; user_id := 1;
            config := Some [greet_record;
                            {| d_name := "big";
                               d_pattern := Some "a{4294967296}";
                               d_responses := [] |}];
            files := []; rng := zeros; log := [] |})
  = Raise OverflowError.
Proof. split; reflexivity. Qed.

(** ** What the handlers keep *)

Lemma preserves_ret {A : Type} (P : World -> Prop) (a : A) :
  preserves P (ret a).
Proof. now intros w Hw. Qed.

Lemma preserves_raise {A : Type} (P : World -> Prop) (e : Exn) :
  preserves P (@raise A e).
Proof. now intros w Hw. Qed.

Lemma preserves_lift {A : Type} (P : World -> Prop) (r : Result A) :
  preserves P (lift r).
Proof. now intros w Hw. Qed.

Lemma preserves_bind {A B : Type} (P : World -> Prop) (m : M A)
    (k : A -> M B) :
  preserves P m -> (forall a, preserves P (k a)) -> preserves P (bind m k).
Proof.
  intros Hm Hk w Hw. unfold bind. specialize (Hm w Hw).
  destruct (m w) as [[a | e] w']; cbn [snd] in *; [now apply Hk | assumption].
Qed.

Lemma preserves_try_except {A : Type} (P : World -> Prop) (m h : M A)
    (handles : Exn -> bool) :
  preserves P m -> preserves P h -> preserves P (try_except m handles h).
Proof.
  intros Hm Hh w Hw. unfold try_except. specialize (Hm w Hw).
  destruct (m w) as [[a | e] w']; cbn [snd] in *; [assumption |].
  destruct (handles e); [now apply Hh | assumption].
Qed.

Lemma preserves_emit (P : World -> Prop) (e : Event) :
  state_only P -> preserves P (emit e).
Proof. intros HP w Hw. now apply (HP w). Qed.

Lemma preserves_random_choice {A : Type} (P : World -> Prop) (l : list A) :
  state_only P -> preserves P (Pal.random_choice l).
Proof.
  intros HP w Hw. unfold Pal.random_choice.
  destruct (choice (rng w) l) as [r g]. now apply (HP w).
Qed.

Lemma preserves_check `{E : re.Engine} (P : World -> Prop) (t : Trigger.t)
    (a : Author) (content : string) :
  state_only P -> preserves P (Pal.check t a content).
Proof.
  intros HP w Hw. unfold Pal.check.
  destruct (Trigger.check t a content (rng w)) as [r g]. now apply (HP w).
Qed.

Lemma preserves_open_rb (P : World -> Prop) (p : path) :
  preserves P (open_rb p).
Proof.
  intros w Hw. unfold open_rb. now destruct (file_exists (files w) p).
Qed.

Lemma preserves_dispatch `{E : re.Engine} (P : World -> Prop) (a : Author)
    (content : string) (ts : list Trigger.t) :
  state_only P -> preserves P (Pal.dispatch a content ts).
Proof.
  intros HP. induction ts as [| t ts IH]; cbn [Pal.dispatch].
  - apply preserves_ret.
  - apply preserves_bind; [now apply preserves_check |].
    intros [r |]; [| exact IH].
    destruct (file r) as [f |].
    + apply preserves_bind; [apply preserves_open_rb |].
      intros _. now apply preserves_emit.
    + now apply preserves_emit.
Qed.

Lemma preserves_on_message `{E : re.Engine} (P : World -> Prop)
    (message : Message) :
  state_only P -> preserves P (Pal.on_message message).
Proof.
  intros HP. unfold Pal.on_message.
  destruct (bot (author message)); [apply preserves_ret |].
  intros w Hw. unfold bind, get.
  destruct (mention_match (user_id w) (content message)); [| assumption].
  now apply preserves_dispatch.
Qed.

Lemma state_only_same_state (w0 : World) : state_only (same_state w0).
Proof.
  intros w w' Ht Hc Hf Hu (H1 & H2 & H3 & H4).
  unfold same_state. now rewrite Ht, Hc, Hf, Hu.
Qed.

Lemma check_draws_once `{E : re.Engine} (t : Trigger.t) (a : Author)
    (content : string) (g g' : Rng) (r : Result (option Response)) :
  Trigger.check t a content g = (r, g') ->
  (exists o, r = Ok o) /\ taken g' <= S (taken g).
Proof.
  unfold Trigger.check.
  destruct (Trigger.pattern t);
    [| intros [= <- <-]; split; [now eexists | lia]].
  destruct (Trigger.responses t) as [| r0 rs];
    [intros [= <- <-]; split; [now eexists | lia] |].
  destruct (re.search p content);
    [| intros [= <- <-]; split; [now eexists | lia]].
  unfold choice, randbelow. intros [= <- <-]. cbn. split; [now eexists | lia].
Qed.

Lemma dispatch_log `{E : re.Engine} (a : Author) (content : string)
    (ts : list Trigger.t) :
  forall w res w',
    Pal.dispatch a content ts w = (res, w') ->
    exists evs,
      log w' = (log w ++ evs)%list /\
      length evs <= 1 /\ forallb is_send evs = true /\
      taken (rng w') <= S (taken (rng w)).
Proof.
  induction ts as [| t ts IH]; intros w res w'; cbn [Pal.dispatch].
  - unfold ret. intros [= <- <-]. exists []. cbn. rewrite app_nil_r.
    repeat split; lia.
  - unfold bind at 1, Pal.check.
    destruct (Trigger.check t a content (rng w)) as [r g] eqn:Hc.
    destruct (check_draws_once t a content (rng w) g r Hc) as ((o & ->) & Hg).
    destruct o as [r |].
    + destruct (file r) as [f |].
      * unfold bind, open_rb, emit. cbn [files set_rng log set_log].
        destruct (file_exists (files w) (Pal.get_trigger_folder t, f));
          intros [= <- <-].
        -- eexists [_]. cbn. repeat split; lia.
        -- exists []. cbn. rewrite app_nil_r. repeat split; lia.
      * unfold emit. intros [= <- <-]. eexists [_]. cbn. repeat split; lia.
    + rewrite (check_None_keeps_rng t a content (rng w)) in Hc
        by (now rewrite Hc).
      injection Hc as <-. rewrite set_rng_same. apply IH.
Qed.

(** X3.  Handling a message never changes the registry, the stored
    configuration or the files; it sends at most one message and nothing but
    messages, and draws at most one random number. *)
Theorem on_message_read_only `{E : re.Engine} (message : Message) (w : World) :
  same_state w (snd (Pal.on_message message w)) /\
  exists evs,
    log (snd (Pal.on_message message w)) = (log w ++ evs)%list /\
    length evs <= 1 /\ forallb is_send evs = true /\
    taken (rng (snd (Pal.on_message message w))) <= S (taken (rng w)).
Proof.
  split.
  - apply (preserves_on_message (same_state w) message
             (state_only_same_state w)).
    now repeat split.
  - destruct (Pal.on_message message w) as [res w'] eqn:Hrun. cbn [snd].
    unfold Pal.on_message in Hrun.
    destruct (bot (author message)).
    + injection Hrun as _ <-. exists []. cbn. rewrite app_nil_r.
      repeat split; lia.
    + unfold bind, get in Hrun.
      destruct (mention_match (user_id w) (content message)).
      * now apply dispatch_log in Hrun.
      * injection Hrun as _ <-. exists []. cbn. rewrite app_nil_r.
        repeat split; lia.
Qed.

Lemma memory_only_state_only (P : World -> Prop) :
  memory_only P -> state_only P.
Proof. intros HP w w' Ht Hc _ Hu. now apply HP. Qed.

Lemma preserves_makedirs (P : World -> Prop) (folder : string) :
  memory_only P -> preserves P (makedirs folder).
Proof.
  intros HP w Hw. unfold makedirs.
  destruct (dict_get (files w) folder); [assumption | now apply (HP w)].
Qed.

Lemma preserves_open_wb (P : World -> Prop) (p : path) :
  memory_only P -> preserves P (open_wb p).
Proof.
  intros HP w Hw. unfold open_wb.
  destruct (dict_get (files w) (fst p)) as [names |]; [| assumption].
  destruct (existsb (String.eqb (snd p)) names);
    [assumption | now apply (HP w)].
Qed.

Lemma preserves_os_remove (P : World -> Prop) (p : path) :
  memory_only P -> preserves P (os_remove p).
Proof.
  intros HP w Hw. unfold os_remove.
  destruct (dict_get (files w) (fst p)) as [names |]; [| assumption].
  destruct (existsb (String.eqb (snd p)) names);
    [now apply (HP w) | assumption].
Qed.

Lemma preserves_rmtree (P : World -> Prop) (folder : string) :
  memory_only P -> preserves P (rmtree folder).
Proof.
  intros HP w Hw. unfold rmtree.
  destruct (dict_get (files w) folder); [now apply (HP w) | assumption].
Qed.

Lemma preserves_random_name (P : World -> Prop) (n : nat) :
  memory_only P -> preserves P (Pal.random_name n).
Proof.
  intros HP. induction n as [| n IH]; cbn [Pal.random_name].
  - apply preserves_ret.
  - apply preserves_bind.
    + apply preserves_random_choice. now apply memory_only_state_only.
    + intros c. apply preserves_bind; [exact IH |].
      intros rest. apply preserves_ret.
Qed.

Lemma preserves_add_reactions (P : World -> Prop) (l : list Emoji) :
  memory_only P -> preserves P (Pal.add_reactions l).
Proof.
  intros HP. induction l as [| e l IH]; cbn [Pal.add_reactions].
  - apply preserves_ret.
  - apply preserves_bind; [| intros _; exact IH].
    apply preserves_emit. now apply memory_only_state_only.
Qed.

(** The loop of [remove] keeps whatever [mutate] keeps. *)
Lemma preserves_remove_loop (P : World -> Prop) (folder : string)
    (events : list Reaction) :
  memory_only P ->
  (forall t, preserves P (Pal.mutate t)) ->
  forall t pages page,
    preserves P (Pal.remove_loop t folder events pages page).
Proof.
  intros HP Hmut.
  assert (Hemit : forall e, preserves P (emit e))
    by (intros e; apply preserves_emit; now apply memory_only_state_only).
  induction events as [| reaction events IH]; intros t pages page;
    cbn [Pal.remove_loop].
  - apply preserves_bind; [apply preserves_lift |]. intros shown.
    apply preserves_bind; [apply Hemit |]. intros _. apply preserves_ret.
  - apply preserves_bind; [apply preserves_lift |]. intros shown.
    apply preserves_bind; [apply Hemit |]. intros _.
    assert (Hcont : forall t' pages' page',
              preserves P
                (bind (lift (pymod page' (Z.of_nat (length pages'))))
                   (fun page0 =>
                      bind (emit (RemoveReaction (emoji reaction)
                                                 (user reaction)))
                        (fun _ => Pal.remove_loop t' folder events pages'
                                                  page0)))).
    { intros t' pages' page'.
      apply preserves_bind; [apply preserves_lift |]. intros page0.
      apply preserves_bind; [apply Hemit |]. intros _. apply IH. }
    destruct (emoji reaction); try apply Hcont; [apply preserves_ret |].
    apply preserves_bind; [apply preserves_lift |]. intros pages'.
    apply preserves_bind; [apply preserves_lift |]. intros r.
    apply preserves_bind.
    { destruct (file r); [| apply preserves_ret].
      apply preserves_try_except;
        [now apply preserves_os_remove | apply preserves_ret]. }
    intros _. apply preserves_bind; [apply preserves_lift |]. intros rest.
    apply preserves_bind; [apply Hmut |]. intros _.
    destruct pages'; [apply Hemit | apply Hcont].
Qed.

Lemma preserves_remove (P : World -> Prop) (ctx : Context) (t : Trigger.t)
    (reactions : list Reaction) :
  memory_only P ->
  (forall t', preserves P (Pal.mutate t')) ->
  preserves P (Pal.remove ctx t reactions).
Proof.
  intros HP Hmut. unfold Pal.remove.
  assert (Hemit : forall e, preserves P (emit e))
    by (intros e; apply preserves_emit; now apply memory_only_state_only).
  apply preserves_bind; [apply Hemit |]. intros _.
  apply preserves_bind; [now apply preserves_add_reactions |]. intros _.
  apply preserves_bind; [now apply preserves_remove_loop |]. intros _.
  apply Hemit.
Qed.

Lemma memory_only_config (c : option (list TriggerDict)) :
  memory_only (fun w => config w = c).
Proof. intros w w' _ Hc _ H. congruence. Qed.

Lemma memory_only_registry_kept : memory_only registry_kept.
Proof. intros w w' Ht _ _ H. unfold registry_kept in *. congruence. Qed.

Lemma mutate_keeps_config (c : option (list TriggerDict))
    (t : Trigger.t) :
  preserves (fun w => config w = c) (Pal.mutate t).
Proof.
  intros w Hw. unfold Pal.mutate.
  now destruct (dict_get (triggers w) (Trigger.name t)).
Qed.

Lemma mutate_keeps_registry (t : Trigger.t) :
  preserves registry_kept (Pal.mutate t).
Proof.
  intros w Hw. unfold Pal.mutate, registry_kept in *.
  destruct (dict_get (triggers w) (Trigger.name t)); [| assumption].
  now apply registry_ok_set.
Qed.

Lemma assign_keeps_registry (t : Trigger.t) :
  preserves registry_kept (Pal.assign (Trigger.name t) t).
Proof. intros w Hw. now apply registry_ok_set. Qed.

Lemma save_keeps_registry : preserves registry_kept Pal.save.
Proof. now intros w Hw. Qed.

(** X4.  Whatever trigger it is given, whatever reactions arrive and however
    it ends, [remove] leaves the stored configuration as it was: the browser
    never saves. *)
Theorem remove_never_saves (ctx : Context) (t : Trigger.t)
    (reactions : list Reaction) (w : World) :
  config (snd (Pal.remove ctx t reactions w)) = config w.
Proof.
  apply (preserves_remove (fun w' => config w' = config w) ctx t reactions
           (memory_only_config (config w))
           (mutate_keeps_config (config w))).
  reflexivity.
Qed.

(** X5.  A registry with no key twice and every trigger under its name stays
    such under every handler and command, whatever they are given and however
    they end. *)
Theorem handlers_keep_registry `{E : re.Engine} (w : World) (ctx : Context)
    (t : Trigger.t) :
  registry_ok (triggers w) ->
  (forall message, registry_ok (triggers (snd (Pal.on_message message w)))) /\
  (forall trigger_name,
     registry_ok (triggers (snd (Pal.create ctx trigger_name w)))) /\
  (forall response, registry_ok (triggers (snd (Pal.add ctx t response w)))) /\
  (forall source, registry_ok (triggers (snd (Pal.pattern ctx t source w)))) /\
  (forall reactions,
     registry_ok (triggers (snd (Pal.remove ctx t reactions w)))) /\
  registry_ok (triggers (snd (Pal.delete ctx t w))).
Proof.
  intros Hw.
  assert (Hemit : forall e, preserves registry_kept (emit e)).
  { intros e. apply preserves_emit, memory_only_state_only.
    exact memory_only_registry_kept. }
  refine (conj _ (conj _ (conj _ (conj _ (conj _ _))))).
  - intros message.
    apply (preserves_on_message registry_kept message); [| exact Hw].
    apply memory_only_state_only. exact memory_only_registry_kept.
  - intros trigger_name. revert w Hw.
    change (preserves registry_kept (Pal.create ctx trigger_name)).
    unfold Pal.create. apply preserves_bind; [now intros w Hw |].
    intros [t' |]; [apply Hemit |].
    apply preserves_bind;
      [apply (assign_keeps_registry (Trigger.init trigger_name)) |].
    intros _. apply preserves_bind; [apply save_keeps_registry |].
    intros _. apply Hemit.
  - intros response. revert w Hw.
    change (preserves registry_kept (Pal.add ctx t response)).
    unfold Pal.add. apply preserves_bind.
    + destruct (attachments (ctx_message ctx)); [apply preserves_ret |].
      apply preserves_bind;
        [apply preserves_makedirs; exact memory_only_registry_kept |].
      intros _. apply preserves_bind;
        [apply preserves_random_name; exact memory_only_registry_kept |].
      intros prefix. apply preserves_bind;
        [apply preserves_open_wb; exact memory_only_registry_kept |].
      intros _. apply preserves_ret.
    + intros stored. apply preserves_bind.
      * apply (assign_keeps_registry
                 {| Trigger.name := Trigger.name t;
                    Trigger.pattern := Trigger.pattern t;
                    Trigger.responses :=
                      (Trigger.responses t ++
                       [{| text := response; file := stored |}])%list |}).
      * intros _. apply preserves_bind; [apply save_keeps_registry |].
        intros _. apply Hemit.
  - intros source. revert w Hw.
    change (preserves registry_kept (Pal.pattern ctx t source)).
    unfold Pal.pattern.
    destruct (String.eqb (Trigger.name t) "default"); [apply Hemit |].
    apply preserves_bind.
    + apply preserves_try_except.
      * apply preserves_bind; [apply preserves_lift |].
        intros p. apply preserves_ret.
      * apply preserves_bind; [apply Hemit |]. intros _. apply preserves_ret.
    + intros [p |]; [| apply preserves_ret].
      apply preserves_bind.
      * apply (assign_keeps_registry
                 {| Trigger.name := Trigger.name t;
                    Trigger.pattern := Some p;
                    Trigger.responses := Trigger.responses t |}).
      * intros _. apply preserves_bind; [apply save_keeps_registry |].
        intros _. apply Hemit.
  - intros reactions.
    apply (preserves_remove registry_kept ctx t reactions
             memory_only_registry_kept mutate_keeps_registry).
    exact Hw.
  - revert w Hw.
    change (preserves registry_kept (Pal.delete ctx t)).
    unfold Pal.delete.
    destruct (String.eqb (Trigger.name t) "default"); [apply Hemit |].
    apply preserves_bind.
    + apply preserves_try_except; [| apply preserves_ret].
      apply preserves_rmtree. exact memory_only_registry_kept.
    + intros _. apply preserves_bind.
      * intros w Hw. unfold Pal.unassign, registry_kept in *.
        destruct (dict_get (triggers w) (Trigger.name t)); [| assumption].
        now apply registry_ok_del.
      * intros _. apply preserves_bind; [apply save_keeps_registry |].
        intros _. apply Hemit.
Qed.

Lemma handlers_keep_registry_witness :
  (forall message,
     registry_ok
       (triggers (snd (Pal.on_message (E := Literal.engine) message
                         (world_of [default_trigger; greet] []))))) /\
  (forall trigger_name,
     registry_ok
       (triggers (snd (Pal.create alice_ctx trigger_name
                         (world_of [default_trigger; greet] []))))) /\
  (forall response,
     registry_ok
       (triggers (snd (Pal.add alice_ctx greet response
                         (world_of [default_trigger; greet] []))))) /\
  (forall source,
     registry_ok
       (triggers (snd (Pal.pattern (E := Literal.engine) alice_ctx greet source
                         (world_of [default_trigger; greet] []))))) /\
  (forall reactions,
     registry_ok
       (triggers (snd (Pal.remove alice_ctx greet reactions
                         (world_of [default_trigger; greet] []))))) /\
  registry_ok
    (triggers (snd (Pal.delete alice_ctx greet
                      (world_of [default_trigger; greet] [])))).
Proof.
  apply (handlers_keep_registry (E := Literal.engine)
           (world_of [default_trigger; greet] []) alice_ctx greet).
  split; [| repeat constructor].
  repeat constructor; cbn; intuition discriminate.
Defined.





(** ** More on the response browser *)




Lemma filter_wait_check_none (ctx : Context) (reactions : list Reaction) :
  Forall (fun x => user x <> id (ctx_author ctx) \/
                   exists e, emoji x = OtherEmoji e) reactions ->
  filter (Pal.wait_check ctx) reactions = [].
Proof.
  induction 1 as [| x reactions Hx _ IH]; [reflexivity |].
  cbn [filter]. rewrite IH. unfold Pal.wait_check.
  destruct Hx as [Huser | (e & He)].
  - apply N.eqb_neq in Huser. rewrite Huser. now rewrite andb_false_r.
  - now rewrite He.
Qed.

(** X8.  Reactions of anyone but the user who ran the command, and reactions
    with an emoji that is no control, are not seen by the browser: it shows
    the first response, times out and clears the controls, and nothing else
    changes. *)
Theorem remove_ignores_others (ctx : Context) (t : Trigger.t)
    (reactions : list Reaction) (w : World) (r : Response)
    (rs : list Response) :
  Trigger.responses t = r :: rs ->
  Forall (fun x => user x <> id (ctx_author ctx) \/
                   exists e, emoji x = OtherEmoji e) reactions ->
  Pal.remove ctx t reactions w
  = (Ok tt,
     set_log w
       (log w ++ opening ++ [Edit (Pal.page_of r); ClearReactions])%list).
Proof.
  intros Hrs Hothers.
  rewrite remove_unfold, (filter_wait_check_none ctx reactions Hothers), Hrs.
  cbn [map Pal.remove_loop]. unfold bind, lift, emit, ret. cbn.
  now rewrite <- !app_assoc.
Qed.

Lemma remove_ignores_others_witness :
  Pal.remove alice_ctx greet
    [press Bin carol; press Close carol;
     {| emoji := OtherEmoji "thumbsup"; user := 7 |}]
    (world_of [default_trigger; greet] [])
  = (Ok tt,
     set_log (world_of [default_trigger; greet] [])
       (log (world_of [default_trigger; greet] []) ++ opening ++
        [Edit (Pal.page_of hello); ClearReactions])%list).
Proof.
  apply (remove_ignores_others alice_ctx greet
           [press Bin carol; press Close carol;
            {| emoji := OtherEmoji "thumbsup"; user := 7 |}]
           (world_of [default_trigger; greet] []) hello []).
  - reflexivity.
  - constructor; [left; cbn; discriminate |].
    constructor; [left; cbn; discriminate |].
    constructor; [right; now exists "thumbsup" | constructor].
Defined.

Lemma nth_error_last {A : Type} (l : list A) (d : A) :
  l <> [] -> nth_error l (length l - 1) = Some (last l d).
Proof.
  induction l as [| x l IH]; [easy |]. intros _.
  destruct l as [| y l]; [reflexivity |].
  replace (length (x :: y :: l) - 1) with (S (length (y :: l) - 1))
    by (cbn [length]; lia).
  cbn [nth_error]. rewrite IH by discriminate. reflexivity.
Qed.

Lemma last_map {A B : Type} (f : A -> B) (l : list A) (d : A) :
  last (map f l) (f d) = f (last l d).
Proof.
  induction l as [| x l IH]; [reflexivity |].
  destruct l as [| y l]; [reflexivity |]. exact IH.
Qed.

(** X9.  The pages wrap around: going back from the first response shows the
    last one, and going on from the last one shows the first again.  Paging
    changes neither the trigger nor the files. *)
Theorem remove_wraps_around (ctx : Context) (t : Trigger.t) (w : World)
    (r : Response) (rs : list Response) :
  Trigger.responses t = r :: rs ->
  let uid := id (ctx_author ctx) in
  Pal.remove ctx t [press Previous (ctx_author ctx);
                    press Following (ctx_author ctx)] w
  = (Ok tt,
     set_log w
       (log w ++ opening ++
        [Edit (Pal.page_of r);
         RemoveReaction Previous uid;
         Edit (Pal.page_of (last (r :: rs) r));
         RemoveReaction Following uid;
         Edit (Pal.page_of r);
         ClearReactions])%list).
Proof.
  intros Hrs uid. rewrite remove_unfold, Hrs.
  set (pages := map Pal.page_of (r :: rs)).
  set (n := Z.of_nat (length pages)).
  assert (Hlen : length pages = S (length rs))
    by (subst pages; cbn; now rewrite length_map).
  assert (Hn : (0 < n)%Z) by (subst n; lia).
  assert (Hback : ((0 - 1) mod n = n - 1)%Z).
  { symmetry. apply (Z.mod_unique_pos _ _ (-1)%Z); lia. }
  assert (Hforth : ((n - 1 + 1) mod n = 0)%Z).
  { replace (n - 1 + 1)%Z with (1 * n)%Z by lia. apply Z.mod_mul. lia. }
  assert (Hfirst : getitem pages 0 = Ok (Pal.page_of r)) by reflexivity.
  assert (Hlast : getitem pages (n - 1)
                  = Ok (Pal.page_of (last (r :: rs) r))).
  { destruct (getitem_in_range pages (n - 1)%Z) as (x & Hx & Hnth);
      [lia |].
    rewrite Hx. f_equal.
    replace (Z.to_nat (n - 1)) with (length pages - 1) in Hnth
      by (subst n; lia).
    rewrite (nth_error_last pages (Pal.page_of r)) in Hnth
      by (subst pages; discriminate).
    injection Hnth as <-. exact (last_map Pal.page_of (r :: rs) r). }
  cbn [filter]. unfold Pal.wait_check, press. cbn [emoji user].
  rewrite N.eqb_refl. cbn [existsb emoji_eqb orb andb Pal.emojis].
  cbn [Pal.remove_loop emoji user]. fold n.
  unfold bind, lift, emit, ret.
  rewrite Hfirst. rewrite pymod_pos by assumption. rewrite Hback, Hlast.
  rewrite pymod_pos by assumption. rewrite Hforth, Hfirst.
  cbn [log set_log triggers user_id config files rng].
  fold uid. now rewrite <- !app_assoc.
Qed.

Lemma remove_wraps_around_witness :
  Pal.remove alice_ctx default_busy
    [press Previous (ctx_author alice_ctx);
     press Following (ctx_author alice_ctx)]
    (world_of [default_busy] picture_files)
  = (Ok tt,
     set_log (world_of [default_busy] picture_files)
       (log (world_of [default_busy] picture_files) ++ opening ++
        [Edit (Pal.page_of hello);
         RemoveReaction Previous (id (ctx_author alice_ctx));
         Edit (Pal.page_of (last [hello; picture] hello));
         RemoveReaction Following (id (ctx_author alice_ctx));
         Edit (Pal.page_of hello);
         ClearReactions])%list).
Proof.
  apply (remove_wraps_around alice_ctx default_busy
           (world_of [default_busy] picture_files) hello [picture]).
  reflexivity.
Defined.



(** ** Adding a response *)














(** ** Mentions of other users *)

Lemma str_of_N_examples :
  str_of_N 0 = "0" /\ str_of_N 157205897611968514 = "157205897611968514".
Proof. split; reflexivity. Qed.

Lemma digits_string_of_uint (d : Decimal.uint) :
  digits (NilEmpty.string_of_uint d) = true.
Proof. induction d; cbn; try reflexivity; exact IHd. Qed.

Lemma str_of_N_inj (n n' : N) : str_of_N n = str_of_N n' -> n = n'.
Proof.
  unfold str_of_N. intros H. apply DecimalN.Unsigned.to_uint_inj.
  pose proof (NilEmpty.usu (N.to_uint n)) as H1.
  pose proof (NilEmpty.usu (N.to_uint n')) as H2.
  rewrite H in H1. congruence.
Qed.

(** Two runs of digits that are each followed by [">"] in the same text are
    the same run. *)
Lemma digits_cut (a b x y : string) :
  digits a = true -> digits b = true ->
  a ++ ">" ++ x = b ++ ">" ++ y -> a = b.
Proof.
  revert b. induction a as [| c a IH]; intros [| c' b] Ha Hb Heq.
  - reflexivity.
  - cbn in Heq. injection Heq as <- _. discriminate.
  - cbn in Heq. injection Heq as -> _. discriminate.
  - cbn in Heq. injection Heq as -> Heq.
    unfold digits in Ha, Hb. cbn in Ha, Hb.
    apply andb_prop in Ha, Hb. f_equal. apply IH; tauto.
Qed.

Lemma mention_tail_other (uid uid' : N) (tail : string) :
  uid' <> uid ->
  mention_tail (str_of_N uid) (str_of_N uid' ++ ">" ++ tail) = None.
Proof.
  intros Hneq. unfold mention_tail.
  destruct (strip_prefix (str_of_N uid) (str_of_N uid' ++ ">" ++ tail))
    as [s1 |] eqn:H1; [| reflexivity].
  destruct (strip_prefix ">" s1) as [s2 |] eqn:H2; [| reflexivity].
  apply strip_prefix_Some in H1, H2. subst s1.
  exfalso. apply Hneq. apply str_of_N_inj. symmetry.
  apply (digits_cut _ _ s2 tail); [| | now symmetry];
    apply digits_string_of_uint.
Qed.

Lemma mention_tail_bang (uid : N) (s : string) :
  mention_tail (str_of_N uid) ("!" ++ s) = None.
Proof.
  unfold mention_tail.
  pose proof (digits_string_of_uint (N.to_uint uid)) as Hd.
  fold (str_of_N uid) in Hd.
  destruct (str_of_N uid) as [| c ids]; [reflexivity |].
  cbn [append strip_prefix].
  destruct (Ascii.eqb c "!") eqn:Hc; [| reflexivity].
  apply Ascii.eqb_eq in Hc. subst c. discriminate.
Qed.

Lemma mention_match_other (uid uid' : N) (bang : bool) (tail : string) :
  uid' <> uid ->
  mention_match uid (mention_token uid' bang ++ tail) = None.
Proof.
  intros Hneq. unfold mention_match, mention_token.
  destruct bang.
  - replace (("<@" ++ "!" ++ str_of_N uid' ++ ">") ++ tail)
      with ("<@" ++ "!" ++ str_of_N uid' ++ ">" ++ tail)
      by (now rewrite !append_assoc).
    rewrite (strip_prefix_app "<@"). cbv zeta.
    rewrite (strip_prefix_app "!").
    rewrite (mention_tail_other uid uid' tail Hneq).
    now rewrite mention_tail_bang.
  - replace (("<@" ++ "" ++ str_of_N uid' ++ ">") ++ tail)
      with ("<@" ++ str_of_N uid' ++ ">" ++ tail)
      by (now rewrite !append_assoc).
    rewrite (strip_prefix_app "<@"). cbv zeta.
    rewrite str_of_N_no_bang.
    now rewrite (mention_tail_other uid uid' tail Hneq).
Qed.

(** X12.  A message that starts with the mention of another user is not
    addressed to the bot: nothing is matched, sent or changed. *)
Theorem on_message_other_mention `{E : re.Engine} (message : Message)
    (w : World) (uid' : N) (bang : bool) (tail : string) :
  uid' <> user_id w ->
  content message = mention_token uid' bang ++ tail ->
  Pal.on_message message w = (Ok tt, w).
Proof.
  intros Hneq Hc. unfold Pal.on_message.
  destruct (bot (author message)); [reflexivity |].
  unfold bind, get. rewrite Hc.
  now rewrite (mention_match_other (user_id w) uid' bang tail Hneq).
Qed.

Lemma on_message_other_mention_witness :
  Pal.on_message (E := Literal.engine)
    {| author := alice; content := "<@12> hi there"; attachments := [] |}
    (world_of [default_trigger; greet] [])
  = (Ok tt, world_of [default_trigger; greet] []).
Proof.
  apply (on_message_other_mention (E := Literal.engine)
           {| author := alice; content := "<@12> hi there";
              attachments := [] |}
           (world_of [default_trigger; greet] []) 12 false " hi there").
  - discriminate.
  - reflexivity.
Defined.

(** ** Sessions of the browser *)








(** ** Serialization, the other way round *)

(** X14.  Serializing a trigger and reading the record back keeps its name
    and responses.  A trigger without pattern comes back as it is; a pattern
    compiled from the empty source is lost; any other pattern comes back
    compiled from its source with [re.I], and when compiling that source
    raises an exception, reading raises the same exception. *)
Theorem to_dict_then_from_dict `{E : re.Engine} (t : Trigger.t) :
  Trigger.from_dict (Trigger.to_dict t)
  = match Trigger.pattern t with
    | None => Ok t
    | Some p =>
        if String.eqb (re.pattern p) "" then Ok (with_pattern t None)
        else
          match re.compile_error (re.pattern p) re.I with
          | None =>
              Ok (with_pattern t
                    (Some {| re.pattern := re.pattern p; re.flags := re.I |}))
          | Some e => Raise e
          end
    end.
Proof.
  rewrite from_dict_unfold. unfold Trigger.to_dict, re.compile, with_pattern.
  destruct t as [nm [[source fl] |] rs]; cbn; [| reflexivity].
  destruct source as [| c source]; cbn; [reflexivity |].
  now destruct (re.compile_error (String c source) re.I).
Qed.

(** ** Showing a trigger *)

Lemma length_take (n : nat) (s : string) :
  String.length (take n s) = Nat.min n (String.length s).
Proof.
  revert s. induction n as [| n IH]; intros [| c s]; cbn; try reflexivity.
  now rewrite IH.
Qed.

Lemma shown_text_bound (r : Response) :
  String.length (Pal.shown_text r) <= 1024 /\
  (String.length (text r) <= 1024 -> Pal.shown_text r = text r) /\
  (1024 < String.length (text r) ->
   Pal.shown_text r = take 1020 (text r) ++ "..." /\
   String.length (Pal.shown_text r) = 1023).
Proof.
  unfold Pal.shown_text.
  destruct (1024 <? String.length (text r))%nat eqn:Hlong.
  - apply Nat.ltb_lt in Hlong.
    assert (Hlen : String.length (take 1020 (text r) ++ "...") = 1023).
    { rewrite length_append, length_take.
      rewrite Nat.min_l by lia. reflexivity. }
    split; [lia |]. split; [lia |]. intros _. now split.
  - apply Nat.ltb_ge in Hlong.
    split; [lia |]. split; [reflexivity | lia].
Qed.

Lemma info_fields_spec (rs : list Response) :
  forall i,
    map fst (Pal.info_fields i rs)
    = map (fun k => "Response #" ++ str_of_N (N.of_nat k))
          (seq i (length rs)) /\
    map snd (Pal.info_fields i rs) = map field_value rs.
Proof.
  induction rs as [| r rs IH]; intros i; cbn; [split; reflexivity |].
  destruct (IH (S i)) as [Hn Hv]. rewrite Hn, Hv. split; reflexivity.
Qed.

(** X15.  [info] sends one embed and changes nothing else.  The embed has one
    field per response, in their order and numbered from 1; a field shows the
    response's text, cut to its first 1020 characters and an ellipsis when the
    text has more than 1024, so the text shown never has more than 1024
    characters; a file name comes after the text. *)
Theorem info_spec (ctx : Context) (t : Trigger.t) (w : World) :
  exists e,
    Pal.info ctx t w = (Ok tt, set_log w (log w ++ [SendEmbed e])%list) /\
    map fst (fields e)
    = map (fun k => "Response #" ++ str_of_N (N.of_nat k))
          (seq 1 (length (Trigger.responses t))) /\
    map snd (fields e) = map field_value (Trigger.responses t) /\
    forall r,
      In r (Trigger.responses t) ->
      String.length (Pal.shown_text r) <= 1024 /\
      (String.length (text r) <= 1024 -> Pal.shown_text r = text r) /\
      (1024 < String.length (text r) ->
       Pal.shown_text r = take 1020 (text r) ++ "..." /\
       String.length (Pal.shown_text r) = 1023).
Proof.
  unfold Pal.info, emit. eexists. split; [reflexivity |].
  cbn [fields].
  destruct (info_fields_spec (Trigger.responses t) 1) as [Hn Hv].
  split; [exact Hn |]. split; [exact Hv |].
  intros r _. apply shown_text_bound.
Qed.

(** ** From the commands to a reply *)

Lemma create_fresh `{E : re.Engine} (ctx : Context) (nm : string) (w : World) :
  dict_get (triggers w) nm = None ->
  exists w1,
    Pal.create ctx nm w = (Ok tt, w1) /\
    triggers w1 = dict_set (triggers w) nm (Trigger.init nm) /\
    rng w1 = rng w /\ user_id w1 = user_id w /\ files w1 = files w.
Proof.
  intros Hfresh. unfold Pal.create, bind, Pal.get_trigger. rewrite Hfresh.
  unfold Pal.assign, Pal.save, emit. eexists. split; [reflexivity |].
  now repeat split.
Qed.

Lemma invoke_pattern `{E : re.Engine} (ctx : Context) (nm source : string)
    (t : Trigger.t) (w : World) :
  dict_get (triggers w) nm = Some t ->
  Trigger.name t = nm ->
  String.eqb nm "default" = false ->
  re.compiles source re.I = true ->
  exists w1,
    Pal.invoke nm (fun t => Pal.pattern ctx t source) w = (Ok tt, w1) /\
    triggers w1
    = dict_set (triggers w) nm
        (with_pattern t (Some {| re.pattern := source; re.flags := re.I |})) /\
    rng w1 = rng w /\ user_id w1 = user_id w /\ files w1 = files w.
Proof.
  intros Hget Hname Hnd Hok. subst nm.
  unfold Pal.invoke, Pal.convert, Pal.get_trigger.
  unfold bind at 1 2. rewrite Hget. unfold ret at 1.
  unfold Pal.pattern. rewrite Hnd.
  unfold bind, try_except, lift. rewrite (compile_compiles _ _ Hok).
  unfold ret, Pal.assign, Pal.save, emit. eexists. split; [reflexivity |].
  now repeat split.
Qed.

Lemma invoke_add (ctx : Context) (nm response : string) (t : Trigger.t)
    (w : World) :
  dict_get (triggers w) nm = Some t ->
  Trigger.name t = nm ->
  plain_ctx ctx = true ->
  exists w1,
    Pal.invoke nm (fun t => Pal.add ctx t response) w = (Ok tt, w1) /\
    triggers w1
    = dict_set (triggers w) nm
        (with_responses t
           (Trigger.responses t ++ [{| text := response; file := None |}])) /\
    rng w1 = rng w /\ user_id w1 = user_id w /\ files w1 = files w.
Proof.
  intros Hget Hname Hplain. subst nm.
  unfold Pal.invoke, Pal.convert, Pal.get_trigger.
  unfold bind at 1 2. rewrite Hget. unfold ret at 1.
  unfold Pal.add. unfold plain_ctx in Hplain.
  destruct (attachments (ctx_message ctx)); [| discriminate].
  unfold bind, ret, Pal.assign, Pal.save, emit. eexists.
  split; [reflexivity |]. now repeat split.
Qed.

(** X16.  A trigger that was created under a new name, given a pattern and
    given one response answers: a user's message that mentions the bot and
    whose remaining text the pattern is found in gets that response as its
    reply, provided no trigger registered before answers first. *)
Theorem set_up_then_reply `{E : re.Engine} (ctx : Context)
    (nm source response : string) (w : World) (message : Message)
    (bang : bool) (k : nat) (remaining : string) :
  dict_get (triggers w) nm = None ->
  String.eqb nm "default" = false ->
  re.compiles source re.I = true ->
  plain_ctx ctx = true ->
  bot (author message) = false ->
  content message = mention_token (user_id w) bang ++ spaces k ++ remaining ->
  starts_with_space remaining = false ->
  re.search {| re.pattern := source; re.flags := re.I |} remaining = true ->
  Forall (fun t' => fst (Trigger.check t' (author message) remaining (rng w))
                    = Ok None)
         (values (triggers w)) ->
  exists w1 w2,
    set_up ctx nm source response w = (Ok tt, w1) /\
    Pal.on_message message w1 = (Ok tt, w2) /\
    log w2
    = (log w1 ++ [Send (mention (author message) ++ " " ++ response) None])%list.
Proof.
  intros Hfresh Hnd Hok Hplain Hbot Hc Hrem Hfound Hquiet.
  destruct (create_fresh ctx nm w Hfresh)
    as (wa & Hcreate & Hta & Hga & Hua & _).
  destruct (invoke_pattern ctx nm source (Trigger.init nm) wa)
    as (wb & Hpattern & Htb & Hgb & Hub & _);
    [rewrite Hta, dict_get_set; now rewrite String.eqb_refl
    | reflexivity | assumption | assumption |].
  set (tb := with_pattern (Trigger.init nm)
               (Some {| re.pattern := source; re.flags := re.I |})) in *.
  destruct (invoke_add ctx nm response tb wb)
    as (wc & Hadd & Htc & Hgc & Huc & _);
    [rewrite Htb, dict_get_set; now rewrite String.eqb_refl
    | reflexivity | assumption |].
  set (tc := with_responses tb
               (Trigger.responses tb ++ [{| text := response; file := None |}]))
    in *.
  rewrite Htb, Hta, !dict_set_set in Htc.
  rewrite (dict_set_fresh _ _ _ Hfresh) in Htc.
  assert (Hrng : rng wc = rng w) by congruence.
  assert (Huid : user_id wc = user_id w) by congruence.
  exists wc.
  assert (Hsetup : set_up ctx nm source response w = (Ok tt, wc)).
  { unfold set_up, bind. rewrite Hcreate. cbv iota beta.
    rewrite Hpattern. exact Hadd. }
  assert (Hcheck : Trigger.check tc (author message) remaining (rng wc)
                   = (Ok (Some {| text := response; file := None |}),
                      after_draws 1 (rng wc))).
  { unfold Trigger.check, tc, tb. cbn [Trigger.pattern Trigger.responses
      with_responses with_pattern Trigger.init app].
    rewrite Hfound. unfold choice, randbelow. cbn [length].
    rewrite Nat.mod_1_r. reflexivity. }
  assert (Hrun : Pal.on_message message wc
                 = reply_outcome wc (author message) tc
                     {| text := response; file := None |}
                     (after_draws 1 (rng wc))).
  { unfold Pal.on_message. rewrite Hbot. unfold bind at 1, get.
    rewrite Huid, Hc, mention_match_token by assumption.
    rewrite <- append_assoc, drop_app.
    rewrite Htc. unfold values. rewrite map_app. cbn [map snd].
    rewrite dispatch_skips by (now rewrite Hrng).
    now apply dispatch_answers. }
  unfold reply_outcome in Hrun. cbn [file text] in Hrun.
  eexists. split; [exact Hsetup |]. split; [exact Hrun |]. reflexivity.
Qed.

Lemma set_up_then_reply_witness :
  exists w1 w2,
    set_up (E := Literal.engine) alice_ctx "greet" "hi" "hello!"
      (world_of [default_trigger] []) = (Ok tt, w1) /\
    Pal.on_message (E := Literal.engine) hi_message w1 = (Ok tt, w2) /\
    log w2
    = (log w1 ++ [Send (mention (author hi_message) ++ " " ++ "hello!") None])%list.
Proof.
  apply (set_up_then_reply (E := Literal.engine) alice_ctx "greet" "hi"
           "hello!" (world_of [default_trigger] []) hi_message false 1
           "hi there");
    try reflexivity.
  repeat constructor.
Defined.

(** ** The stored configuration after a session *)

Lemma values_dict_set_changed {V W : Type} (f : V -> W) (d : dict V)
    (k : string) (v v' : V) :
  dict_get d k = Some v -> f v' <> f v ->
  map f (values (dict_set d k v')) <> map f (values d).
Proof.
  intros Hget Hf. unfold values.
  induction d as [| [k0 v0] d IH]; cbn in *; [discriminate |].
  destruct (String.eqb k0 k).
  - injection Hget as ->. cbn. intros H. apply Hf. congruence.
  - cbn. intros H. apply IH; [assumption | congruence].
Qed.

(** X17.  When the stored configuration was the registry's before a session
    on a registered trigger, it no longer is after a session that deleted a
    response: the session changes the trigger in memory and leaves the stored
    configuration behind. *)
Theorem remove_leaves_config_behind (ctx : Context) (t : Trigger.t)
    (reactions : list Reaction) (w : World) (r : Response)
    (rs : list Response) :
  Trigger.responses t = r :: rs ->
  dict_get (triggers w) (Trigger.name t) = Some t ->
  config w = Some (map Trigger.to_dict (values (triggers w))) ->
  exists w' kept,
    Pal.remove ctx t reactions w = (Ok tt, w') /\
    dict_get (triggers w') (Trigger.name t) = Some (with_responses t kept) /\
    (kept <> Trigger.responses t ->
     config w' <> Some (map Trigger.to_dict (values (triggers w')))).
Proof.
  intros Hrs Hreg Hsync.
  destruct (remove_browse ctx t reactions w r rs Hrs Hreg)
    as (w' & evs & Hrun & Htr & Hcfg & _).
  exists w',
    (browse (map emoji (filter (Pal.wait_check ctx) reactions))
            (Trigger.responses t) 0).
  split; [exact Hrun |]. rewrite Htr, Hcfg, Hsync. split.
  - rewrite dict_get_set. now rewrite String.eqb_refl.
  - intros Hkept Heq. injection Heq as Heq. symmetry in Heq. revert Heq.
    apply values_dict_set_changed with (v := t); [exact Hreg |].
    unfold Trigger.to_dict, with_responses. cbn. intros [= H].
    now apply Hkept.
Qed.

Lemma remove_leaves_config_behind_witness :
  exists w' kept,
    Pal.remove alice_ctx greet [press Bin alice]
      (world_of [default_trigger; greet] []) = (Ok tt, w') /\
    dict_get (triggers w') (Trigger.name greet)
    = Some (with_responses greet kept) /\
    (kept <> Trigger.responses greet ->
     config w' <> Some (map Trigger.to_dict (values (triggers w')))).
Proof.
  apply (remove_leaves_config_behind alice_ctx greet [press Bin alice]
           (world_of [default_trigger; greet] []) hello []);
    reflexivity.
Defined.
